(** * arm-grab: the OCI instance acquisition loop

    A shallow embedding of [arm-grab.py] and the properties of its
    retry loop.  The script builds one launch request per availability
    domain, then cycles over them forever, calling the provider's
    [launch_instance]; a rejected request is echoed, appended to
    [faillog.txt] and followed by a sleep; a successful request or a
    Ctrl-C ends the process through [sys.exit(0)].

    Python exceptions are modelled by an error monad over an explicit
    world (console, log file, provider calls, sleeps); what the
    provider, the file system and the operator do is given by an oracle
    indexed by the attempt number. *)

From Stdlib Require Import List String Ascii ZArith Lia Bool Arith.
From Stdlib Require Import DecimalString DecimalZ.
From Stdlib Require Import Permutation Sorted.
Import ListNotations.

Local Open Scope string_scope.
Local Open Scope list_scope.

(* ================================================================= *)
(** ** Text: the string operations the script relies on *)

Module Text.

Definition nl : string := String (ascii_of_nat 10) EmptyString.

Definition dash : ascii := "-"%char.

(** [sep.join(parts)] *)
Fixpoint join (sep : string) (parts : list string) : string :=
  match parts with
  | [] => EmptyString
  | [x] => x
  | x :: rest => (x ++ sep ++ join sep rest)%string
  end.

(** [str(n)] for a Python [int]: decimal digits, a leading minus
    sign for negative numbers, ["0"] for zero. *)
Definition str (n : Z) : string := NilZero.string_of_int (Z.to_int n).

(** [int(s)] on decimal text; [None] stands for [ValueError]. *)
Definition int (s : string) : option Z :=
  option_map Z.of_int (NilZero.int_of_string s).

(** [sep in s] *)
Fixpoint contains (sep s : string) : bool :=
  prefix sep s
  || match s with
     | EmptyString => false
     | String _ s' => contains sep s'
     end.

(** [s[-1]], when [s] is not empty *)
Fixpoint last_char (s : string) : option ascii :=
  match s with
  | EmptyString => None
  | String c EmptyString => Some c
  | String _ s' => last_char s'
  end.

(** The scan behind [s.split(sep)]: occurrences of [sep] are taken
    leftmost first and do not overlap.  [skip] counts the characters
    of a separator just matched that are still to be passed over,
    [cur] is the field read so far. *)
Fixpoint split_go (sep : string) (skip : nat) (cur s : string)
  : list string :=
  match s with
  | EmptyString => [cur]
  | String c s' =>
      match skip with
      | S n => split_go sep n cur s'
      | O =>
          if prefix sep s
          then cur :: split_go sep (String.length sep - 1) EmptyString s'
          else split_go sep O (cur ++ String c EmptyString)%string s'
      end
  end.

(** [s.split(sep)]; an empty separator raises [ValueError] ([None]). *)
Definition split (sep s : string) : option (list string) :=
  match sep with
  | EmptyString => None
  | _ => Some (split_go sep O EmptyString s)
  end.

(** No character of [s] is a dash. *)
Fixpoint no_dash (s : string) : bool :=
  match s with
  | EmptyString => true
  | String c s' => negb (Ascii.eqb c dash) && no_dash s'
  end.

(** A field that can stand in front of a separator and be found
    again: the separator does not occur in it and it does not end in
    a dash (which would run into the separator that follows). *)
Definition field_ok (f : string) : Prop :=
  contains "---" f = false /\ last_char f <> Some dash.

End Text.

(* ================================================================= *)
(** ** The OCI model objects the script builds *)

Record LaunchInstanceShapeConfigDetails := {
  ocpus : Z;
  memory_in_gbs : Z
}.

Record LaunchInstanceAvailabilityConfigDetails := {
  recovery_action : string
}.

Record InstanceOptions := {
  are_legacy_imds_endpoints_disabled : bool
}.

Record InstanceSourceViaImageDetails := {
  source_type : string;
  image_id : string
}.

Record CreateVnicDetails := {
  subnet_id : string;
  assign_public_ip : bool
}.

Record LaunchInstanceDetails := {
  compartment_id : string;
  availability_domain : string;
  shape : string;
  shape_config : LaunchInstanceShapeConfigDetails;
  display_name : string;
  source_details : InstanceSourceViaImageDetails;
  create_vnic_details : CreateVnicDetails;
  metadata : list (string * string);
  availability_config : LaunchInstanceAvailabilityConfigDetails;
  instance_options : InstanceOptions
}.

(** The attributes of [oci.exceptions.ServiceError] that the script reads. *)
Record ServiceErrorInfo := {
  timestamp : string;
  status : Z;
  message : string
}.

(** What [launch_instance] returns on success: the provider's
    response, kept opaque. *)
Definition Response := string.

(** The module-level values that come from the account at start-up:
    the tenancy, the first subnet of the first VCN, the availability
    domains, the newest matching Ubuntu image, the public key. *)
Record Startup := {
  COMPARTMENT_ID : string;
  SUBNET_ID : string;
  AD_NAMES : list string;
  IMAGE_ID : string;
  pub_key : string
}.

Definition INSTANCE_NAME : string := "Armz0".
Definition SHAPE_NAME : string := "VM.Standard.A1.Flex".
Definition SHAPE_CONFIG : LaunchInstanceShapeConfigDetails :=
  {| ocpus := 4; memory_in_gbs := 24 |}.
Definition AVAILABILITY_CONFIG : LaunchInstanceAvailabilityConfigDetails :=
  {| recovery_action := "RESTORE_INSTANCE" |}.
Definition INSTANCE_OPTIONS : InstanceOptions :=
  {| are_legacy_imds_endpoints_disabled := true |}.
Definition METADATA (g : Startup) : list (string * string) :=
  [("ssh_authorized_keys", pub_key g)].

(* ================================================================= *)
(** ** Effects: world, exceptions, oracle *)

Inductive Exn :=
| ServiceError (e : ServiceErrorInfo)
| KeyboardInterrupt
| SystemExit (code : Z)
| OSError (reason : string).

(** Everything the script does to its surroundings, in order. *)
Record World := {
  calls : list LaunchInstanceDetails;  (* arguments of launch_instance *)
  stdout : list string;                (* arguments of print *)
  faillog : list string;               (* text appended to faillog.txt *)
  sleeps : list Z                      (* arguments of sleep *)
}.

Definition fresh : World :=
  {| calls := []; stdout := []; faillog := []; sleeps := [] |}.

Inductive LaunchOutcome :=
| Launched (r : Response)
| Rejected (e : ServiceErrorInfo)
| LaunchInterrupted.

Inductive IoOutcome := IoOk | IoFail (reason : string).

Inductive SleepOutcome := Completed | Interrupted.

(** What happens around the script during one pass of the loop body. *)
Record Events := {
  launch : LaunchOutcome;
  write : IoOutcome;
  nap : SleepOutcome
}.

(** Passes are numbered from 0 by the [launch_instance] calls made. *)
Definition Env := nat -> Events.

Inductive Res (A : Type) :=
| Ret (a : A)
| Raise (x : Exn)
| OutOfFuel.

Arguments Ret {A} a.
Arguments Raise {A} x.
Arguments OutOfFuel {A}.

Definition M (A : Type) := World -> Res A * World.

Definition ret {A} (a : A) : M A := fun w => (Ret a, w).

Definition raise {A} (x : Exn) : M A := fun w => (Raise x, w).

Definition bind {A B} (c : M A) (k : A -> M B) : M B :=
  fun w =>
    match c w with
    | (Ret a, w') => k a w'
    | (Raise x, w') => (Raise x, w')
    | (OutOfFuel, w') => (OutOfFuel, w')
    end.

Notation "x <- c ;; k" := (bind c (fun x => k))
  (at level 61, c at next level, right associativity).
Notation "c ;; k" := (bind c (fun _ => k))
  (at level 61, right associativity).

(** [try: body except ...]: [handler x] is the clause that matches
    [x], if any; an exception raised by a clause is not offered to its
    sibling clauses. *)
Definition try_except {A} (body : M A) (handler : Exn -> option (M A)) : M A :=
  fun w =>
    match body w with
    | (Raise x, w') =>
        match handler x with
        | Some h => h w'
        | None => (Raise x, w')
        end
    | rw => rw
    end.

Definition current_pass (w : World) : nat := pred (List.length (calls w)).

Section Script.

Variable g : Startup.
Variable env : Env.

(** *** Primitives *)

Definition launch_instance (i : LaunchInstanceDetails) : M Response :=
  fun w =>
    let w' := {| calls := calls w ++ [i]; stdout := stdout w;
                 faillog := faillog w; sleeps := sleeps w |} in
    match launch (env (List.length (calls w))) with
    | Launched r => (Ret r, w')
    | Rejected e => (Raise (ServiceError e), w')
    | LaunchInterrupted => (Raise KeyboardInterrupt, w')
    end.

Definition print (s : string) : M unit :=
  fun w => (Ret tt, {| calls := calls w; stdout := stdout w ++ [s];
                       faillog := faillog w; sleeps := sleeps w |}).

(** [with open("faillog.txt", "a") as f: f.write(text)] *)
Definition append_faillog (text : string) : M unit :=
  fun w =>
    match write (env (current_pass w)) with
    | IoOk => (Ret tt, {| calls := calls w; stdout := stdout w;
                          faillog := faillog w ++ [text];
                          sleeps := sleeps w |})
    | IoFail reason => (Raise (OSError reason), w)
    end.

Definition sleep (duration : Z) : M unit :=
  fun w =>
    let w' := {| calls := calls w; stdout := stdout w;
                 faillog := faillog w; sleeps := sleeps w ++ [duration] |} in
    match nap (env (current_pass w)) with
    | Completed => (Ret tt, w')
    | Interrupted => (Raise KeyboardInterrupt, w')
    end.

Definition sys_exit {A} (code : Z) : M A := raise (SystemExit code).

(** *** The script's functions *)

Definition new_instance (i : string) : LaunchInstanceDetails :=
  {| compartment_id := COMPARTMENT_ID g;
     availability_domain := i;
     shape := SHAPE_NAME;
     shape_config := SHAPE_CONFIG;
     display_name := INSTANCE_NAME;
     source_details :=
       {| source_type := "image"; image_id := IMAGE_ID g |};
     create_vnic_details :=
       {| subnet_id := SUBNET_ID g; assign_public_ip := true |};
     metadata := METADATA g;
     availability_config := AVAILABILITY_CONFIG;
     instance_options := INSTANCE_OPTIONS |}.

(** The [for i in AD_NAMES] loop of [create_instance_list], with the
    list being appended to as its state. *)
Fixpoint append_instances (names : list string)
         (instance_list : list LaunchInstanceDetails)
  : M (list LaunchInstanceDetails) :=
  match names with
  | [] => ret instance_list
  | i :: rest => append_instances rest (instance_list ++ [new_instance i])
  end.

Definition create_instance_list : M (list LaunchInstanceDetails) :=
  append_instances (AD_NAMES g) [].

Definition cancel_message : string :=
  (Text.nl ++ "ctrl-c  --  exiting")%string.

Definition safe_sleep (duration : Z) : M unit :=
  try_except (sleep duration)
    (fun x =>
       match x with
       | KeyboardInterrupt => Some (print cancel_message ;; sys_exit 0)
       | _ => None
       end).

(** The line built from a rejected request. *)
Definition failure_msg (i : LaunchInstanceDetails) (err : ServiceErrorInfo)
  : string :=
  Text.join "---"
    [timestamp err; availability_domain i; Text.str (status err);
     message err].

(** The body of [for i in instance_list]. *)
Definition attempt (i : LaunchInstanceDetails) : M unit :=
  try_except
    (response <- launch_instance i ;;
     print "FINALLY!!!!" ;;
     sys_exit 0)
    (fun x =>
       match x with
       | ServiceError err =>
           Some (let msg := failure_msg i err in
                 print msg ;;
                 append_faillog (msg ++ Text.nl)%string ;;
                 if (status err =? 500)%Z
                 then safe_sleep 4
                 else safe_sleep 60)
       | KeyboardInterrupt =>
           Some (print cancel_message ;; sys_exit 0)
       | _ => None
       end).

Fixpoint for_each {A} (l : list A) (body : A -> M unit) : M unit :=
  match l with
  | [] => ret tt
  | x :: rest => body x ;; for_each rest body
  end.

(** [while True: body], unrolled [fuel] times. *)
Fixpoint while_true (fuel : nat) (body : M unit) : M unit :=
  match fuel with
  | O => fun w => (OutOfFuel, w)
  | S n => body ;; while_true n body
  end.

Definition main (fuel : nat) : M unit :=
  instance_list <- create_instance_list ;;
  while_true fuel (for_each instance_list attempt).

End Script.

(** How the operating system sees the end of [main()]. *)
Inductive ProcessStatus :=
| Exited (code : Z)       (* sys.exit(code), or falling off the script *)
| Traceback (x : Exn)     (* an exception nobody caught *)
| Looping.                (* still inside while True *)

Definition process_status (r : Res unit) : ProcessStatus :=
  match r with
  | Ret _ => Exited 0
  | Raise (SystemExit code) => Exited code
  | Raise x => Traceback x
  | OutOfFuel => Looping
  end.

(* ================================================================= *)
(** ** Vocabulary for the statements *)

(** The delay the script asks for after a rejection with this error. *)
Definition chosen_delay (err : ServiceErrorInfo) : Z :=
  if (status err =? 500)%Z then 4 else 60.

(** The instance list repeated once per turn of [while True]. *)
Definition rounds (fuel : nat) (l : list LaunchInstanceDetails)
  : list LaunchInstanceDetails :=
  List.concat (repeat l fuel).

(** What [create_instance_list] hands to the loop. *)
Definition instance_list (g : Startup) : list LaunchInstanceDetails :=
  map (new_instance g) (AD_NAMES g).

(** A pass goes through to the next one when the request is rejected,
    the log line is written and the sleep is not interrupted. *)
Definition completes (ev : Events) : bool :=
  match launch ev, write ev, nap ev with
  | Rejected _, IoOk, Completed => true
  | _, _, _ => false
  end.

(** The first [k] passes all go through: the run gets to pass [k]. *)
Definition passed (env : Env) (k : nat) : Prop :=
  forall j, j < k -> completes (env j) = true.

(** The world at the start of pass [k] of a run with [fuel] rounds. *)
Definition world_at (g : Startup) (env : Env) (fuel k : nat) : World :=
  snd (for_each (firstn k (rounds fuel (instance_list g))) (attempt env) fresh).

(** The same surroundings, except for what the provider answers in
    pass [k]. *)
Definition with_launch (env : Env) (k : nat) (o : LaunchOutcome) : Env :=
  fun j =>
    if Nat.eqb j k
    then {| launch := o; write := write (env j); nap := nap (env j) |}
    else env j.

(** Every field but the availability domain has the value the script
    gives to all its requests. *)
Definition from_template (g : Startup) (d : LaunchInstanceDetails) : Prop :=
  compartment_id d = COMPARTMENT_ID g /\
  shape d = SHAPE_NAME /\
  shape_config d = SHAPE_CONFIG /\
  display_name d = INSTANCE_NAME /\
  source_details d = {| source_type := "image"; image_id := IMAGE_ID g |} /\
  create_vnic_details d =
    {| subnet_id := SUBNET_ID g; assign_public_ip := true |} /\
  metadata d = METADATA g /\
  availability_config d = AVAILABILITY_CONFIG /\
  instance_options d = INSTANCE_OPTIONS.

(* ================================================================= *)
(** ** Concrete accounts and surroundings used in the examples *)

Module Scenario.

Definition account (names : list string) : Startup :=
  {| COMPARTMENT_ID := "ocid1.tenancy.oc1..example";
     SUBNET_ID := "ocid1.subnet.oc1.phx.example";
     AD_NAMES := names;
     IMAGE_ID := "ocid1.image.oc1.phx.example";
     pub_key := "ssh-rsa AAAA example" |}.

Definition three_domains : Startup :=
  account ["Uocm:PHX-AD-1"; "Uocm:PHX-AD-2"; "Uocm:PHX-AD-3"].

Definition no_domain : Startup := account [].

Definition dash_domain : Startup := account ["AD-"].

Definition out_of_capacity (code : Z) : ServiceErrorInfo :=
  {| timestamp := "2024-05-01T10:00:00.000000+00:00";
     status := code;
     message := "Out of host capacity." |}.

Definition rejected (code : Z) : Events :=
  {| launch := Rejected (out_of_capacity code);
     write := IoOk;
     nap := Completed |}.

Definition granted (handle : Response) : Events :=
  {| launch := Launched handle; write := IoOk; nap := Completed |}.

(** Two rejections with status 500, then the request is granted. *)
Definition third_time_lucky (handle : Response) : Env :=
  fun k =>
    match k with
    | 0 | 1 => rejected 500
    | _ => granted handle
    end.

(** Every request is rejected with the given status. *)
Definition always_rejected (code : Z) : Env := fun _ => rejected code.

(** The second log write fails; a later request would be granted. *)
Definition disk_full : Env :=
  fun k =>
    match k with
    | 0 => rejected 500
    | 1 => {| launch := Rejected (out_of_capacity 500);
              write := IoFail "[Errno 28] No space left on device";
              nap := Completed |}
    | _ => granted "ocid1.instance.oc1.phx.example"
    end.

(** Ctrl-C during the sleep that follows the second rejection. *)
Definition ctrl_c_asleep : Env :=
  fun k =>
    match k with
    | 0 => rejected 500
    | _ => {| launch := Rejected (out_of_capacity 409);
              write := IoOk;
              nap := Interrupted |}
    end.

(** Ctrl-C while the second request is in flight. *)
Definition ctrl_c_in_flight : Env :=
  fun k =>
    match k with
    | 0 => rejected 500
    | _ => {| launch := LaunchInterrupted; write := IoOk; nap := Completed |}
    end.

End Scenario.

(* ================================================================= *)
(** ** Start-up: what the script computes before [main] runs *)

Module Py.

(** Whether [x] is placed in front of [y] when [x] came first in the
    input: on equal keys it is, so the order of equal elements is
    kept, also with [reverse=True]. *)
Definition goes_first (reverse : bool) (kx ky : Z) : bool :=
  if reverse then (ky <=? kx)%Z else (kx <=? ky)%Z.

Fixpoint sorted_insert {A} (key : A -> Z) (reverse : bool) (x : A)
         (l : list A) : list A :=
  match l with
  | [] => [x]
  | y :: l' =>
      if goes_first reverse (key x) (key y)
      then x :: l
      else y :: sorted_insert key reverse x l'
  end.

(** [sorted(l, key=key, reverse=reverse)].  Python's sort is stable,
    and the result of a stable sort is fixed by its input, so a stable
    insertion sort returns the same list. *)
Definition sorted {A} (key : A -> Z) (reverse : bool) (l : list A) : list A :=
  fold_right (sorted_insert key reverse) [] l.

End Py.

Module Vcn.
Record t := { id : string }.
End Vcn.

Module Subnet.
Record t := { id : string }.
End Subnet.

Module AvailabilityDomain.
Record t := { name : string }.
End AvailabilityDomain.

Module Image.
(** [time_created] is a point in time, kept as a number. *)
Record t := { id : string; display_name : string; time_created : Z }.
End Image.

(** What the script finds around it at start-up: the tenancy of the
    configuration file, the public key file (if it can be read) and
    the listings the provider returns. *)
Record Account := {
  config_tenancy : string;
  id_rsa_pub : option string;
  list_vcns : string -> list Vcn.t;
  list_subnets : string -> string -> list Subnet.t;
  list_availability_domains : string -> list AvailabilityDomain.t;
  list_images : string -> string -> list Image.t
}.

(** The test of the image loop: an Ubuntu image for aarch64 that is
    not a Minimal one. *)
Definition is_ubuntu_image (img : Image.t) : bool :=
  Text.contains "Ubuntu" (Image.display_name img)
  && Text.contains "aarch64" (Image.display_name img)
  && negb (Text.contains "Minimal" (Image.display_name img)).

(** The [for img in image_list] loop, with [ubuntu_list] as its state. *)
Fixpoint collect_ubuntu (image_list ubuntu_list : list Image.t)
  : list Image.t :=
  match image_list with
  | [] => ubuntu_list
  | img :: rest =>
      collect_ubuntu rest
        (if is_ubuntu_image img then ubuntu_list ++ [img] else ubuntu_list)
  end.

(** [sorted(ubuntu_list, key=lambda x: x.time_created, reverse=True)[0]];
    [None] stands for the [IndexError] of [[0]] on an empty list. *)
Definition newest_ubuntu (image_list : list Image.t) : option Image.t :=
  hd_error (Py.sorted Image.time_created true (collect_ubuntu image_list [])).

Inductive StartupError :=
| KeyFileError      (* open() of the public key file fails *)
| IndexError.       (* [0] on an empty listing *)

Inductive Boot :=
| Booted (g : Startup)
| Failed (e : StartupError).

(** The module-level statements, in the order the script runs them. *)
Definition module_level (a : Account) : Boot :=
  match id_rsa_pub a with
  | None => Failed KeyFileError
  | Some key =>
      let compartment := config_tenancy a in
      match list_vcns a compartment with
      | [] => Failed IndexError
      | vcn :: _ =>
          match list_subnets a compartment (Vcn.id vcn) with
          | [] => Failed IndexError
          | subnet :: _ =>
              let names :=
                map AvailabilityDomain.name
                    (list_availability_domains a compartment) in
              match newest_ubuntu (list_images a compartment SHAPE_NAME) with
              | None => Failed IndexError
              | Some img =>
                  Booted {| COMPARTMENT_ID := compartment;
                            SUBNET_ID := Subnet.id subnet;
                            AD_NAMES := names;
                            IMAGE_ID := Image.id img;
                            pub_key := key |}
              end
          end
      end
  end.

(** The whole script: the module level, then [main()]. *)
Inductive Run :=
| NeverStarted (e : StartupError)
| Ran (r : Res unit) (w : World).

Definition script (a : Account) (env : Env) (fuel : nat) : Run :=
  match module_level a with
  | Failed e => NeverStarted e
  | Booted g => let (r, w) := main g env fuel fresh in Ran r w
  end.

(** The trail of [k] passes that all went through: every pass left its
    request, its console line, its log line and its sleep, in step. *)
Definition in_step (env : Env) (w : World) : Prop :=
  List.length (stdout w) = List.length (calls w) /\
  List.length (faillog w) = List.length (calls w) /\
  List.length (sleeps w) = List.length (calls w) /\
  forall j, j < List.length (calls w) ->
    exists i err,
      nth_error (calls w) j = Some i /\
      launch (env j) = Rejected err /\
      write (env j) = IoOk /\
      nap (env j) = Completed /\
      nth_error (stdout w) j = Some (failure_msg i err) /\
      nth_error (faillog w) j = Some (failure_msg i err ++ Text.nl)%string /\
      nth_error (sleeps w) j = Some (chosen_delay err).

Module Sample.

Definition image (id name : string) (created : Z) : Image.t :=
  {| Image.id := id; Image.display_name := name;
     Image.time_created := created |}.

Definition images : list Image.t :=
  [ image "img-oracle" "Oracle-Linux-9.3-aarch64-2024.02.26-0" 1708905600;
    image "img-2204-old" "Canonical-Ubuntu-22.04-aarch64-2024.01.12-0"
          1705017600;
    image "img-2204-min" "Canonical-Ubuntu-22.04-Minimal-aarch64-2024.02.18-0"
          1708214400;
    image "img-2204" "Canonical-Ubuntu-22.04-aarch64-2024.02.18-0" 1708214400;
    image "img-2004" "Canonical-Ubuntu-20.04-aarch64-2024.02.18-0" 1708214400;
    image "img-x86" "Canonical-Ubuntu-22.04-2024.02.18-0" 1708214400 ].

Definition account (vcns : list Vcn.t) (subnets : list Subnet.t)
           (imgs : list Image.t) : Account :=
  {| config_tenancy := "ocid1.tenancy.oc1..example";
     id_rsa_pub := Some "ssh-rsa AAAA example";
     list_vcns := fun _ => vcns;
     list_subnets := fun _ _ => subnets;
     list_availability_domains :=
       fun _ => [ {| AvailabilityDomain.name := "Uocm:PHX-AD-1" |};
                  {| AvailabilityDomain.name := "Uocm:PHX-AD-2" |} ];
     list_images := fun _ _ => imgs |}.

Definition ready : Account :=
  account [ {| Vcn.id := "ocid1.vcn.oc1.phx.example" |} ]
          [ {| Subnet.id := "ocid1.subnet.oc1.phx.example" |} ]
          images.

Definition no_vcn : Account := account [] [] images.

End Sample.


(* ================================================================= *)
(** ** One pass of the loop body *)

Section Pass.

Variable env : Env.

Lemma pass_after_call {A} (l : list A) (x : A) :
  pred (List.length (l ++ [x])) = List.length l.
Proof. rewrite length_app; simpl; lia. Qed.

Ltac step_body :=
  unfold attempt, safe_sleep, try_except, bind, launch_instance, print,
    append_faillog, sleep, sys_exit, raise, ret, current_pass; simpl;
  rewrite ?pass_after_call.

Lemma attempt_launched i w r :
  launch (env (List.length (calls w))) = Launched r ->
  attempt env i w =
    (Raise (SystemExit 0),
     {| calls := calls w ++ [i];
        stdout := stdout w ++ ["FINALLY!!!!"];
        faillog := faillog w;
        sleeps := sleeps w |}).
Proof. intros H. step_body. rewrite H. reflexivity. Qed.

Lemma attempt_launch_interrupted i w :
  launch (env (List.length (calls w))) = LaunchInterrupted ->
  attempt env i w =
    (Raise (SystemExit 0),
     {| calls := calls w ++ [i];
        stdout := stdout w ++ [cancel_message];
        faillog := faillog w;
        sleeps := sleeps w |}).
Proof. intros H. step_body. rewrite H. reflexivity. Qed.

Lemma attempt_write_failed i w err reason :
  launch (env (List.length (calls w))) = Rejected err ->
  write (env (List.length (calls w))) = IoFail reason ->
  attempt env i w =
    (Raise (OSError reason),
     {| calls := calls w ++ [i];
        stdout := stdout w ++ [failure_msg i err];
        faillog := faillog w;
        sleeps := sleeps w |}).
Proof.
  intros H1 H2. step_body. rewrite H1. simpl.
  rewrite ?pass_after_call, H2. reflexivity.
Qed.

Lemma attempt_sleep_interrupted i w err :
  launch (env (List.length (calls w))) = Rejected err ->
  write (env (List.length (calls w))) = IoOk ->
  nap (env (List.length (calls w))) = Interrupted ->
  attempt env i w =
    (Raise (SystemExit 0),
     {| calls := calls w ++ [i];
        stdout := (stdout w ++ [failure_msg i err]) ++ [cancel_message];
        faillog := faillog w ++ [(failure_msg i err ++ Text.nl)%string];
        sleeps := sleeps w ++ [chosen_delay err] |}).
Proof.
  intros H1 H2 H3. unfold chosen_delay. step_body. rewrite H1. simpl.
  rewrite ?pass_after_call, H2.
  destruct (status err =? 500)%Z; simpl;
    rewrite ?pass_after_call, H3; reflexivity.
Qed.

Lemma attempt_completed i w err :
  launch (env (List.length (calls w))) = Rejected err ->
  write (env (List.length (calls w))) = IoOk ->
  nap (env (List.length (calls w))) = Completed ->
  attempt env i w =
    (Ret tt,
     {| calls := calls w ++ [i];
        stdout := stdout w ++ [failure_msg i err];
        faillog := faillog w ++ [(failure_msg i err ++ Text.nl)%string];
        sleeps := sleeps w ++ [chosen_delay err] |}).
Proof.
  intros H1 H2 H3. unfold chosen_delay. step_body. rewrite H1. simpl.
  rewrite ?pass_after_call, H2.
  destruct (status err =? 500)%Z; simpl;
    rewrite ?pass_after_call, H3; reflexivity.
Qed.

(** Whatever happens, a pass makes exactly one provider call. *)
Lemma attempt_calls i w :
  calls (snd (attempt env i w)) = calls w ++ [i].
Proof.
  destruct (launch (env (List.length (calls w)))) as [r|err|] eqn:H1.
  - rewrite (attempt_launched _ _ _ H1). reflexivity.
  - destruct (write (env (List.length (calls w)))) as [|reason] eqn:H2.
    + destruct (nap (env (List.length (calls w)))) eqn:H3.
      * rewrite (attempt_completed _ _ _ H1 H2 H3). reflexivity.
      * rewrite (attempt_sleep_interrupted _ _ _ H1 H2 H3). reflexivity.
    + rewrite (attempt_write_failed _ _ _ _ H1 H2). reflexivity.
  - rewrite (attempt_launch_interrupted _ _ H1). reflexivity.
Qed.

(** A pass never runs out of fuel by itself. *)
Lemma attempt_not_out_of_fuel i w :
  fst (attempt env i w) <> OutOfFuel.
Proof.
  destruct (launch (env (List.length (calls w)))) as [r|err|] eqn:H1.
  - rewrite (attempt_launched _ _ _ H1). discriminate.
  - destruct (write (env (List.length (calls w)))) as [|reason] eqn:H2.
    + destruct (nap (env (List.length (calls w)))) eqn:H3.
      * rewrite (attempt_completed _ _ _ H1 H2 H3). discriminate.
      * rewrite (attempt_sleep_interrupted _ _ _ H1 H2 H3). discriminate.
    + rewrite (attempt_write_failed _ _ _ _ H1 H2). discriminate.
  - rewrite (attempt_launch_interrupted _ _ H1). discriminate.
Qed.

End Pass.

(* ================================================================= *)
(** ** The two loops *)

Section Loops.

Variable body : LaunchInstanceDetails -> M unit.

Lemma for_each_app (l1 l2 : list LaunchInstanceDetails) w :
  for_each (l1 ++ l2) body w =
    match for_each l1 body w with
    | (Ret _, w') => for_each l2 body w'
    | rw => rw
    end.
Proof.
  revert w. induction l1 as [|x l1 IH]; intros w; simpl.
  - reflexivity.
  - unfold bind. destruct (body x w) as [[[]| |] w1]; auto.
Qed.

(** [while True: for i in l: body] is one long [for] over the rounds,
    as far as the fuel goes. *)
Lemma while_true_rounds fuel l w :
  while_true fuel (for_each l body) w =
    match for_each (rounds fuel l) body w with
    | (Ret _, w') => (OutOfFuel, w')
    | rw => rw
    end.
Proof.
  revert w. induction fuel as [|n IH]; intros w.
  - reflexivity.
  - unfold rounds. simpl. fold (rounds n l). rewrite for_each_app.
    unfold bind. destruct (for_each l body w) as [[[]| |] w1]; auto.
Qed.

Lemma rounds_length fuel (l : list LaunchInstanceDetails) :
  List.length (rounds fuel l) = fuel * List.length l.
Proof.
  unfold rounds. induction fuel as [|n IH]; simpl.
  - reflexivity.
  - rewrite length_app, IH. reflexivity.
Qed.

End Loops.

(** In round-robin order, position [k] of the rounds holds element
    [k mod n] of the list. *)
Lemma rounds_nth_error fuel (l : list LaunchInstanceDetails) k :
  k < fuel * List.length l ->
  nth_error (rounds fuel l) k = nth_error l (k mod List.length l).
Proof.
  revert k. induction fuel as [|n IH]; intros k Hk.
  - simpl in Hk. lia.
  - unfold rounds. simpl. fold (rounds n l).
    destruct (Nat.lt_ge_cases k (List.length l)) as [Hlt|Hge].
    + rewrite nth_error_app1 by exact Hlt.
      rewrite Nat.mod_small by exact Hlt. reflexivity.
    + rewrite nth_error_app2 by exact Hge.
      rewrite IH by (simpl in Hk; lia).
      f_equal.
      replace k with ((k - List.length l) + 1 * List.length l) at 2 by lia.
      rewrite Nat.Div0.mod_add. reflexivity.
Qed.

Section Builder.

Variable g : Startup.

Lemma append_instances_spec names acc w :
  append_instances g names acc w = (Ret (acc ++ map (new_instance g) names), w).
Proof.
  revert acc. induction names as [|i rest IH]; intros acc; simpl.
  - rewrite app_nil_r. reflexivity.
  - rewrite IH, <- app_assoc. reflexivity.
Qed.

Lemma create_instance_list_spec w :
  create_instance_list g w = (Ret (map (new_instance g) (AD_NAMES g)), w).
Proof. unfold create_instance_list. apply append_instances_spec. Qed.

(** [main] in one piece: the builder's list, walked round after round. *)
Lemma main_rounds env fuel w :
  main g env fuel w =
    match for_each (rounds fuel (map (new_instance g) (AD_NAMES g)))
                   (attempt env) w with
    | (Ret _, w') => (OutOfFuel, w')
    | rw => rw
    end.
Proof.
  unfold main, bind at 1. rewrite create_instance_list_spec.
  apply while_true_rounds.
Qed.

End Builder.

(* ================================================================= *)
(** ** Runs *)

Section Runs.

Variable g : Startup.
Variable env : Env.

Lemma completes_inv ev :
  completes ev = true ->
  exists err, launch ev = Rejected err /\ write ev = IoOk /\ nap ev = Completed.
Proof.
  unfold completes.
  destruct (launch ev) as [r|err|]; try discriminate.
  destruct (write ev); try discriminate.
  destruct (nap ev); try discriminate.
  intros _. exists err. auto.
Qed.

Lemma attempt_goes_through i w :
  completes (env (List.length (calls w))) = true ->
  exists w', attempt env i w = (Ret tt, w') /\ calls w' = calls w ++ [i].
Proof.
  intros H. apply completes_inv in H. destruct H as (err & H1 & H2 & H3).
  rewrite (attempt_completed _ _ _ _ H1 H2 H3).
  eexists. split; reflexivity.
Qed.

Lemma attempt_stops i w :
  completes (env (List.length (calls w))) = false ->
  exists x, fst (attempt env i w) = Raise x.
Proof.
  unfold completes. intros H.
  destruct (launch (env (List.length (calls w)))) as [r|err|] eqn:H1.
  - rewrite (attempt_launched _ _ _ _ H1). eexists; reflexivity.
  - destruct (write (env (List.length (calls w)))) as [|reason] eqn:H2.
    + destruct (nap (env (List.length (calls w)))) eqn:H3; try discriminate.
      rewrite (attempt_sleep_interrupted _ _ _ _ H1 H2 H3).
      eexists; reflexivity.
    + rewrite (attempt_write_failed _ _ _ _ _ H1 H2). eexists; reflexivity.
  - rewrite (attempt_launch_interrupted _ _ _ H1). eexists; reflexivity.
Qed.

(** The calls of a [for] loop are a prefix of the list it walks. *)
Lemma for_each_calls l w :
  exists n,
    n <= List.length l /\
    calls (snd (for_each l (attempt env) w)) = calls w ++ firstn n l.
Proof.
  revert w. induction l as [|i l IH]; intros w; simpl.
  - exists 0. rewrite app_nil_r. auto.
  - unfold bind. pose proof (attempt_calls env i w) as Hc.
    destruct (attempt env i w) as [[[]|x|] w1]; simpl in Hc.
    + destruct (IH w1) as (n & Hn & Hn'). exists (S n). split; [lia|].
      rewrite Hn', Hc, <- app_assoc. reflexivity.
    + exists 1. split; [lia|]. simpl. exact Hc.
    + exists 1. split; [lia|]. simpl. exact Hc.
Qed.

(** If the passes up to [k] go through, the loop gets to pass [k] with
    exactly [k] calls made, in the world its first steps leave. *)
Lemma for_each_reaches l w k :
  List.length (calls w) <= k ->
  k < List.length (calls w) + List.length l ->
  (forall j, List.length (calls w) <= j < k -> completes (env j) = true) ->
  exists i rest,
    nth_error l (k - List.length (calls w)) = Some i /\
    List.length
      (calls (snd (for_each (firstn (k - List.length (calls w)) l)
                            (attempt env) w))) = k /\
    for_each l (attempt env) w =
      for_each (i :: rest) (attempt env)
        (snd (for_each (firstn (k - List.length (calls w)) l)
                       (attempt env) w)).
Proof.
  revert w. induction l as [|i l IH]; intros w Hle Hlt Hpass.
  - simpl in Hlt. lia.
  - destruct (Nat.eq_dec (List.length (calls w)) k) as [Heq|Hne].
    + exists i, l. rewrite Heq, Nat.sub_diag. simpl. auto.
    + destruct (attempt_goes_through i w) as (w1 & Hrun & Hcalls).
      { apply Hpass. lia. }
      assert (Hlen : List.length (calls w1) = S (List.length (calls w))).
      { rewrite Hcalls, length_app. simpl. lia. }
      destruct (IH w1) as (i' & rest & Hnth & Hk & Hfor).
      * lia.
      * simpl in Hlt. lia.
      * intros j Hj. apply Hpass. lia.
      * replace (k - List.length (calls w))
          with (S (k - List.length (calls w1))) by lia.
        exists i', rest.
        assert (Hhead : forall l',
                   for_each (i :: l') (attempt env) w =
                   for_each l' (attempt env) w1).
        { intros l'. simpl. unfold bind. rewrite Hrun. reflexivity. }
        cbn [firstn nth_error]. rewrite !Hhead. auto.
Qed.

(** A pass that raises ends the loops: the run is that pass. *)
Lemma for_each_raises i rest w x :
  fst (attempt env i w) = Raise x ->
  for_each (i :: rest) (attempt env) w = attempt env i w.
Proof.
  simpl. unfold bind. destruct (attempt env i w) as [[[]|y|] w1]; simpl;
    intros H; try discriminate; reflexivity.
Qed.

(** The run of [main] when pass [k] is the first not to go through:
    with fuel for [k + 1] passes, the whole run is the [k] passes that
    go through followed by pass [k], on the candidate that round-robin
    order puts there. *)
Lemma main_ends_at_pass k fuel :
  passed env k ->
  completes (env k) = false ->
  k < fuel * List.length (AD_NAMES g) ->
  exists ad,
    nth_error (AD_NAMES g) (k mod List.length (AD_NAMES g)) = Some ad /\
    List.length (calls (world_at g env fuel k)) = k /\
    main g env fuel fresh =
      attempt env (new_instance g ad) (world_at g env fuel k).
Proof.
  intros Hpass Hstop Hfuel. unfold world_at.
  set (l := instance_list g).
  assert (Hl : List.length l = List.length (AD_NAMES g))
    by (unfold l, instance_list; apply length_map).
  destruct (for_each_reaches (rounds fuel l) fresh k)
    as (i & rest & Hnth & Hk & Hfor).
  - simpl. lia.
  - simpl. rewrite rounds_length, Hl. exact Hfuel.
  - intros j Hj. apply Hpass. lia.
  - change (List.length (calls fresh)) with 0 in Hnth, Hk, Hfor.
    rewrite Nat.sub_0_r in Hnth, Hk, Hfor.
    rewrite rounds_nth_error in Hnth by (rewrite Hl; exact Hfuel).
    rewrite Hl in Hnth. unfold l, instance_list in Hnth.
    rewrite nth_error_map in Hnth.
    destruct (nth_error (AD_NAMES g) (k mod List.length (AD_NAMES g)))
      as [ad|]; simpl in Hnth; [|discriminate].
    injection Hnth as <-. exists ad. split; [reflexivity|].
    split; [exact Hk|].
    rewrite main_rounds. fold (instance_list g). fold l. rewrite Hfor.
    set (wm := snd (for_each (firstn k (rounds fuel l)) (attempt env) fresh))
      in *.
    destruct (attempt_stops (new_instance g ad) wm) as (x & Hx).
    { rewrite Hk. exact Hstop. }
    rewrite (for_each_raises _ _ _ _ Hx).
    destruct (attempt env (new_instance g ad) wm) as [[[]|y|] w1];
      simpl in Hx; try discriminate; reflexivity.
Qed.

End Runs.

(* ================================================================= *)
(** ** Splitting a log line back into its fields *)

Module TextFacts.
Import Text.

Lemma append_empty_r (s : string) : (s ++ "")%string = s.
Proof. induction s as [|c s IH]; simpl; [reflexivity | now rewrite IH]. Qed.

Lemma append_snoc (s t : string) (c : ascii) :
  ((s ++ String c "") ++ t)%string = (s ++ String c t)%string.
Proof. induction s as [|d s IH]; simpl; [reflexivity | now rewrite IH]. Qed.

Lemma contains_tail sep c s :
  contains sep (String c s) = false ->
  prefix sep (String c s) = false /\ contains sep s = false.
Proof.
  cbn [contains]. intros H. apply orb_false_iff in H. exact H.
Qed.

Lemma field_ok_tail c f : field_ok (String c f) -> field_ok f.
Proof.
  intros [Hc Hl]. split.
  - apply (contains_tail _ _ _ Hc).
  - destruct f as [|c' f']; [discriminate | exact Hl].
Qed.

(** Inside a good field followed by a separator, the separator is not
    seen before the field ends. *)
Lemma field_ok_no_early_match c f rest :
  field_ok (String c f) ->
  prefix "---" (String c f ++ "---" ++ rest)%string = false.
Proof.
  intros [Hc Hl].
  destruct f as [|c2 [|c3 f3]]; cbn [append prefix].
  - destruct (ascii_dec "-" c) as [<-|]; [|reflexivity].
    exfalso. apply Hl. reflexivity.
  - destruct (ascii_dec "-" c) as [<-|]; [|reflexivity].
    destruct (ascii_dec "-" c2) as [<-|]; [|reflexivity].
    exfalso. apply Hl. reflexivity.
  - apply contains_tail in Hc. destruct Hc as [Hp _].
    cbn [prefix] in Hp.
    destruct (ascii_dec "-" c); [|reflexivity].
    destruct (ascii_dec "-" c2); [|reflexivity].
    destruct (ascii_dec "-" c3); [|reflexivity].
    destruct f3; discriminate Hp.
Qed.

(** The scan cuts a good field exactly at the separator behind it. *)
Lemma split_go_field f cur rest :
  field_ok f ->
  split_go "---" 0 cur (f ++ "---" ++ rest)%string =
    (cur ++ f)%string :: split_go "---" 0 "" rest.
Proof.
  revert cur. induction f as [|c f IH]; intros cur Hok.
  - rewrite append_empty_r. destruct rest; reflexivity.
  - pose proof (field_ok_no_early_match c f rest Hok) as Hp.
    change (String c f ++ "---" ++ rest)%string
      with (String c (f ++ "---" ++ rest))%string in *.
    cbn [split_go]. rewrite Hp.
    rewrite IH by exact (field_ok_tail _ _ Hok).
    rewrite append_snoc. reflexivity.
Qed.

(** Text without a separator is one field. *)
Lemma split_go_last m cur :
  contains "---" m = false ->
  split_go "---" 0 cur m = [(cur ++ m)%string].
Proof.
  revert cur. induction m as [|c m IH]; intros cur Hc.
  - simpl. rewrite append_empty_r. reflexivity.
  - apply contains_tail in Hc. destruct Hc as [Hp Hc].
    cbn [split_go]. rewrite Hp, IH by exact Hc.
    rewrite append_snoc. reflexivity.
Qed.

Lemma no_dash_field_ok s : no_dash s = true -> field_ok s.
Proof.
  induction s as [|c s IH]; intros H.
  - split; [reflexivity | discriminate].
  - simpl in H. apply andb_true_iff in H. destruct H as [Hc Hs].
    apply negb_true_iff in Hc. apply Ascii.eqb_neq in Hc.
    destruct (IH Hs) as [IH1 IH2]. split.
    + cbn [contains]. rewrite IH1, orb_false_r. cbn [prefix].
      destruct (ascii_dec "-" c) as [E|]; [|reflexivity].
      exfalso. apply Hc. symmetry. exact E.
    + destruct s as [|c' s'].
      * simpl. intros [= E]. apply Hc. exact E.
      * exact IH2.
Qed.

(** A minus sign in front of digits is still a good field. *)
Lemma minus_field_ok s :
  no_dash s = true -> s <> EmptyString -> field_ok (String dash s).
Proof.
  intros H Hne. destruct (no_dash_field_ok s H) as [H1 H2]. split.
  - cbn [contains]. rewrite H1, orb_false_r.
    destruct s as [|c s']; [contradiction|].
    simpl in H. apply andb_true_iff in H. destruct H as [Hc _].
    apply negb_true_iff in Hc. apply Ascii.eqb_neq in Hc.
    unfold dash in *. cbn [prefix].
    destruct (ascii_dec "-" "-"); [|reflexivity].
    destruct (ascii_dec "-" c) as [E|]; [|reflexivity].
    exfalso. apply Hc. symmetry. exact E.
  - destruct s as [|c s']; [contradiction | exact H2].
Qed.

Lemma digits_no_dash d : no_dash (NilEmpty.string_of_uint d) = true.
Proof. induction d; simpl; auto. Qed.

Lemma digits_nonempty d :
  d <> Decimal.Nil -> NilEmpty.string_of_uint d <> EmptyString.
Proof. destruct d; simpl; intros H; try discriminate. contradiction. Qed.

(** [str(n)] is a good field for every integer. *)
Lemma str_field_ok n : field_ok (str n).
Proof.
  unfold str. destruct n as [|p|p]; simpl.
  - apply no_dash_field_ok. reflexivity.
  - pose proof (DecimalPos.Unsigned.to_uint_nonnil p) as Hp.
    unfold NilZero.string_of_uint.
    destruct (Pos.to_uint p) eqn:E; try contradiction;
      apply no_dash_field_ok; rewrite <- E; apply digits_no_dash.
  - pose proof (DecimalPos.Unsigned.to_uint_nonnil p) as Hp.
    unfold NilZero.string_of_uint.
    destruct (Pos.to_uint p) eqn:E; try contradiction;
      (apply minus_field_ok;
       [rewrite <- E; apply digits_no_dash
       | rewrite <- E; apply digits_nonempty; rewrite E; discriminate]).
Qed.

(** [int(str(n)) == n] *)
Lemma int_str n : int (str n) = Some n.
Proof.
  unfold int, str. rewrite NilZero.isi.
  - simpl. rewrite DecimalZ.of_to. reflexivity.
  - destruct n as [|p|p]; simpl; try discriminate.
    intros [= E]. exact (DecimalPos.Unsigned.to_uint_nonnil p E).
  - destruct n as [|p|p]; simpl; try discriminate.
    intros [= E]. exact (DecimalPos.Unsigned.to_uint_nonnil p E).
Qed.

(** Four good fields joined by the separator split back into
    themselves; the last one only has to be free of the separator. *)
Lemma split_join4 a b c m :
  field_ok a -> field_ok b -> field_ok c -> contains "---" m = false ->
  split "---" (join "---" [a; b; c; m]) = Some [a; b; c; m].
Proof.
  intros Ha Hb Hc Hm. unfold split. cbn [join]. f_equal.
  rewrite (split_go_field a "" _ Ha).
  rewrite (split_go_field b "" _ Hb).
  rewrite (split_go_field c "" _ Hc).
  rewrite (split_go_last m "" Hm). reflexivity.
Qed.

End TextFacts.

(* ================================================================= *)
(** ** What a run depends on *)

Section Dependence.

Variable g : Startup.

(** A pass only looks at the events of its own number. *)
Lemma attempt_ext env env' i w :
  env (List.length (calls w)) = env' (List.length (calls w)) ->
  attempt env i w = attempt env' i w.
Proof.
  intros E.
  destruct (launch (env (List.length (calls w)))) as [r|err|] eqn:H1;
    pose proof H1 as H1'; rewrite E in H1'.
  - rewrite (attempt_launched _ _ _ _ H1), (attempt_launched _ _ _ _ H1').
    reflexivity.
  - destruct (write (env (List.length (calls w)))) as [|reason] eqn:H2;
      pose proof H2 as H2'; rewrite E in H2'.
    + destruct (nap (env (List.length (calls w)))) eqn:H3;
        pose proof H3 as H3'; rewrite E in H3'.
      * rewrite (attempt_completed _ _ _ _ H1 H2 H3),
          (attempt_completed _ _ _ _ H1' H2' H3').
        reflexivity.
      * rewrite (attempt_sleep_interrupted _ _ _ _ H1 H2 H3),
          (attempt_sleep_interrupted _ _ _ _ H1' H2' H3').
        reflexivity.
    + rewrite (attempt_write_failed _ _ _ _ _ H1 H2),
        (attempt_write_failed _ _ _ _ _ H1' H2').
      reflexivity.
  - rewrite (attempt_launch_interrupted _ _ _ H1),
      (attempt_launch_interrupted _ _ _ H1').
    reflexivity.
Qed.

Lemma for_each_ext env env' l w :
  (forall j,
      List.length (calls w) <= j < List.length (calls w) + List.length l ->
      env j = env' j) ->
  for_each l (attempt env) w = for_each l (attempt env') w.
Proof.
  revert w. induction l as [|i l IH]; intros w E.
  - reflexivity.
  - simpl. unfold bind.
    rewrite <- (attempt_ext env env' i w) by (apply E; simpl; lia).
    pose proof (attempt_calls env i w) as Hc.
    destruct (attempt env i w) as [[[]|x|] w1]; simpl in Hc; try reflexivity.
    apply IH. intros j Hj. apply E.
    rewrite Hc, length_app in Hj. simpl in *. lia.
Qed.

(** The world at the start of pass [k] is made by the passes before it. *)
Lemma world_at_ext env env' fuel k :
  (forall j, j < k -> env j = env' j) ->
  world_at g env fuel k = world_at g env' fuel k.
Proof.
  intros E. unfold world_at. f_equal. apply for_each_ext.
  intros j Hj. apply E.
  pose proof (firstn_le_length k (rounds fuel (instance_list g))).
  simpl in Hj. lia.
Qed.

Lemma main_world env fuel w :
  snd (main g env fuel w) =
  snd (for_each (rounds fuel (instance_list g)) (attempt env) w).
Proof.
  rewrite main_rounds. fold (instance_list g).
  destruct (for_each (rounds fuel (instance_list g)) (attempt env) w)
    as [[[]|x|] w1]; reflexivity.
Qed.

(** The provider calls of a run, in order, are the start of the
    rounds over the instance list. *)
Lemma main_calls env fuel :
  exists n,
    n <= fuel * List.length (AD_NAMES g) /\
    calls (snd (main g env fuel fresh)) =
      firstn n (rounds fuel (instance_list g)).
Proof.
  rewrite main_world.
  destruct (for_each_calls env (rounds fuel (instance_list g)) fresh)
    as (n & Hn & Hc).
  exists n. split.
  - rewrite rounds_length in Hn. unfold instance_list in Hn.
    rewrite length_map in Hn. exact Hn.
  - exact Hc.
Qed.

End Dependence.

(** Two neighbouring positions never fall on the same slot of a cycle
    of more than one element. *)
Lemma neighbours_differ_mod n k : 1 < n -> k mod n <> S k mod n.
Proof.
  intros Hn E.
  pose proof (Nat.div_mod_eq k n) as Hk.
  pose proof (Nat.div_mod_eq (S k) n) as Hs.
  pose proof (Nat.mod_upper_bound k n ltac:(lia)) as Hb.
  rewrite <- E in Hs.
  assert (H : n * (S k / n) = n * (k / n) + 1) by lia.
  assert (Hq : S k / n = k / n \/ k / n < S k / n \/ S k / n < k / n) by lia.
  destruct Hq as [Hq|[Hq|Hq]]; nia.
Qed.

(* ================================================================= *)
(** ** Properties of the script *)

Import Scenario.

(** *** The delay after a rejection *)

(** After a rejection with status 500 the script sleeps 4 seconds. *)
Example backoff_after_500 :
  sleeps (snd (attempt (always_rejected 500)
                       (new_instance three_domains "Uocm:PHX-AD-1") fresh))
  = [4%Z].
Proof. reflexivity. Qed.

(** C1, as stated, fails: status 503 lies in [500,599], and the delay
    chosen after a rejection with status 503 is 60 seconds, not 20. *)
Lemma backoff_after_503_is_60 :
  (500 <= status (out_of_capacity 503) <= 599)%Z /\
  sleeps (snd (attempt (always_rejected 503)
                       (new_instance three_domains "Uocm:PHX-AD-1") fresh))
  = [60%Z] /\
  sleeps (snd (attempt (always_rejected 503)
                       (new_instance three_domains "Uocm:PHX-AD-1") fresh))
  <> [20%Z].
Proof.
  split; [simpl; lia|]. split; [reflexivity|]. vm_compute. discriminate.
Qed.

(** C1, amended: for every rejected request whose status code is not
    exactly 500 (the codes 501 to 599 included), once the log line is
    written the script asks for a delay of 60 seconds before the next
    submission. *)
Theorem backoff_60_unless_500 (env : Env) (i : LaunchInstanceDetails)
        (w : World) (err : ServiceErrorInfo) :
  launch (env (List.length (calls w))) = Rejected err ->
  write (env (List.length (calls w))) = IoOk ->
  status err <> 500%Z ->
  sleeps (snd (attempt env i w)) = sleeps w ++ [60%Z].
Proof.
  intros H1 H2 Hs.
  assert (Hd : chosen_delay err = 60%Z).
  { unfold chosen_delay. apply Z.eqb_neq in Hs. rewrite Hs. reflexivity. }
  destruct (nap (env (List.length (calls w)))) eqn:H3.
  - rewrite (attempt_completed _ _ _ _ H1 H2 H3). simpl. now rewrite Hd.
  - rewrite (attempt_sleep_interrupted _ _ _ _ H1 H2 H3). simpl.
    now rewrite Hd.
Qed.

Lemma backoff_60_unless_500_witness :
  sleeps (snd (attempt (always_rejected 599)
                       (new_instance three_domains "Uocm:PHX-AD-2") fresh))
  = sleeps fresh ++ [60%Z].
Proof.
  apply (backoff_60_unless_500 (always_rejected 599)
           (new_instance three_domains "Uocm:PHX-AD-2") fresh
           (out_of_capacity 599)).
  - reflexivity.
  - reflexivity.
  - simpl. lia.
Defined.

(** *** A failing log write *)

(** C2, as stated, fails: when the second log write fails, the
    [OSError] leaves [main] uncaught, the process ends in a traceback
    after two submissions, and the third submission, which would have
    been granted, is never made. *)
Lemma log_write_failure_aborts :
  process_status (fst (main three_domains disk_full 4 fresh))
  = Traceback (OSError "[Errno 28] No space left on device") /\
  List.length (calls (snd (main three_domains disk_full 4 fresh))) = 2 /\
  launch (disk_full 2) = Launched "ocid1.instance.oc1.phx.example" /\
  List.length (calls (snd (main three_domains disk_full 400 fresh))) = 2.
Proof. repeat split; vm_compute; reflexivity. Qed.

(** C2, amended: if the log write of pass [k] fails with an
    [OSError], the error is not caught.  Given fuel to get there, the
    run is the passes before [k] followed by the submission and the
    console echo of pass [k]; nothing is written or slept after that,
    no further submission is made, and the process ends with the
    [OSError] as an unhandled exception. *)
Theorem log_write_failure_ends_run (g : Startup) (env : Env)
        (k fuel : nat) (err : ServiceErrorInfo) (reason : string) :
  passed env k ->
  launch (env k) = Rejected err ->
  write (env k) = IoFail reason ->
  k < fuel * List.length (AD_NAMES g) ->
  exists ad,
    let wm := world_at g env fuel k in
    nth_error (AD_NAMES g) (k mod List.length (AD_NAMES g)) = Some ad /\
    main g env fuel fresh =
      (Raise (OSError reason),
       {| calls := calls wm ++ [new_instance g ad];
          stdout := stdout wm ++ [failure_msg (new_instance g ad) err];
          faillog := faillog wm;
          sleeps := sleeps wm |}) /\
    List.length (calls (snd (main g env fuel fresh))) = S k /\
    process_status (fst (main g env fuel fresh)) = Traceback (OSError reason).
Proof.
  intros Hp H1 H2 Hf.
  destruct (main_ends_at_pass g env k fuel Hp) as (ad & Hnth & Hk & Hmain).
  { unfold completes. rewrite H1, H2. reflexivity. }
  { exact Hf. }
  exists ad. cbv zeta. split; [exact Hnth|].
  rewrite <- Hk in H1, H2.
  rewrite (attempt_write_failed _ _ _ _ _ H1 H2) in Hmain.
  rewrite Hmain. simpl. repeat split.
  rewrite length_app. simpl. lia.
Qed.

Lemma log_write_failure_ends_run_witness :
  exists ad,
    let wm := world_at three_domains disk_full 4 1 in
    nth_error (AD_NAMES three_domains) (1 mod 3) = Some ad /\
    main three_domains disk_full 4 fresh =
      (Raise (OSError "[Errno 28] No space left on device"),
       {| calls := calls wm ++ [new_instance three_domains ad];
          stdout := stdout wm ++ [failure_msg (new_instance three_domains ad)
                                              (out_of_capacity 500)];
          faillog := faillog wm;
          sleeps := sleeps wm |}) /\
    List.length (calls (snd (main three_domains disk_full 4 fresh))) = 2 /\
    process_status (fst (main three_domains disk_full 4 fresh))
    = Traceback (OSError "[Errno 28] No space left on device").
Proof.
  apply (log_write_failure_ends_run three_domains disk_full 1 4
           (out_of_capacity 500) "[Errno 28] No space left on device").
  - intros j Hj. destruct j as [|j]; [reflexivity | lia].
  - reflexivity.
  - reflexivity.
  - simpl. lia.
Defined.

(** *** No availability domain *)

Lemma for_each_rounds_nil (body : LaunchInstanceDetails -> M unit) fuel w :
  for_each (rounds fuel []) body w = (Ret tt, w).
Proof.
  unfold rounds. induction fuel as [|n IH]; [reflexivity | exact IH].
Qed.

(** C3, as stated, fails: with no availability domain the builder
    returns the empty list and raises nothing, and [main] then sits in
    [while True] without ever ending. *)
Lemma empty_domains_no_error :
  create_instance_list no_domain fresh = (Ret [], fresh) /\
  main no_domain (always_rejected 500) 1000 fresh = (OutOfFuel, fresh).
Proof. split; vm_compute; reflexivity. Qed.

(** C3, amended: when the list of availability domains is empty, the
    builder returns the empty list without raising any error, and the
    loop is then entered and turns forever: however long it runs it
    makes no submission, prints and logs nothing, and never exits. *)
Theorem empty_domains_spin (g : Startup) (w : World) :
  AD_NAMES g = [] ->
  create_instance_list g w = (Ret [], w) /\
  forall (env : Env) (fuel : nat), main g env fuel w = (OutOfFuel, w).
Proof.
  intros H. split.
  - rewrite create_instance_list_spec, H. reflexivity.
  - intros env fuel. rewrite main_rounds, H. simpl.
    rewrite for_each_rounds_nil. reflexivity.
Qed.

Lemma empty_domains_spin_witness :
  create_instance_list no_domain fresh = (Ret [], fresh) /\
  forall (env : Env) (fuel : nat),
    main no_domain env fuel fresh = (OutOfFuel, fresh).
Proof. apply (empty_domains_spin no_domain fresh). reflexivity. Defined.

(** *** The builder *)

Lemma new_instance_from_template g ad : from_template g (new_instance g ad).
Proof. unfold from_template. simpl. repeat split. Qed.

(** C4: for every non-empty list of availability domains the builder
    returns, without touching the world, a list with one request per
    domain, in the order of the domains (so of the same length), each
    request carrying the script's fixed values in every field except
    the availability domain. *)
Theorem builder_one_request_per_domain (g : Startup) (w : World) :
  AD_NAMES g <> [] ->
  exists out,
    create_instance_list g w = (Ret out, w) /\
    List.length out = List.length (AD_NAMES g) /\
    map availability_domain out = AD_NAMES g /\
    Forall (from_template g) out.
Proof.
  intros _. exists (map (new_instance g) (AD_NAMES g)). split; [|split; [|split]].
  - apply create_instance_list_spec.
  - apply length_map.
  - rewrite map_map. simpl. apply map_id.
  - apply Forall_map. apply Forall_forall. intros ad _.
    apply new_instance_from_template.
Qed.

Lemma builder_one_request_per_domain_witness :
  exists out,
    create_instance_list three_domains fresh = (Ret out, fresh) /\
    List.length out = 3 /\
    map availability_domain out
    = ["Uocm:PHX-AD-1"; "Uocm:PHX-AD-2"; "Uocm:PHX-AD-3"] /\
    Forall (from_template three_domains) out.
Proof.
  apply (builder_one_request_per_domain three_domains fresh). discriminate.
Defined.

(** *** The order of the submissions *)

(** Submission number [k] of any run goes to domain [k mod n] of the
    [n] availability domains, whatever happened before. *)
Lemma call_location g env fuel k a :
  nth_error (calls (snd (main g env fuel fresh))) k = Some a ->
  nth_error (AD_NAMES g) (k mod List.length (AD_NAMES g))
  = Some (availability_domain a).
Proof.
  destruct (main_calls g env fuel) as (n & Hn & ->).
  rewrite nth_error_firstn.
  destruct (Nat.ltb k n) eqn:Hkn; [|discriminate].
  intros H.
  assert (Hlen : k < fuel * List.length (instance_list g)).
  { rewrite <- rounds_length. apply nth_error_Some. rewrite H. discriminate. }
  rewrite rounds_nth_error in H by exact Hlen.
  unfold instance_list in H. rewrite length_map, nth_error_map in H.
  destruct (nth_error (AD_NAMES g) (k mod List.length (AD_NAMES g)))
    as [ad|]; simpl in H; [|discriminate].
  injection H as <-. reflexivity.
Qed.

(** C5: in every run, whatever the provider, the disk and the operator
    do, submission number [k] goes to the availability domain at
    position [k mod n] of the builder's order ([n] domains): the fixed
    order, wrapping from the last back to the first, independent of
    the failures so far.  Hence, with more than one candidate, one per
    distinct domain, two consecutive submissions never go to the same
    availability domain. *)
Theorem round_robin_order (g : Startup) (env : Env) (fuel k : nat)
        (a : LaunchInstanceDetails) :
  nth_error (calls (snd (main g env fuel fresh))) k = Some a ->
  nth_error (AD_NAMES g) (k mod List.length (AD_NAMES g))
  = Some (availability_domain a) /\
  (NoDup (AD_NAMES g) ->
   1 < List.length (AD_NAMES g) ->
   forall b,
     nth_error (calls (snd (main g env fuel fresh))) (S k) = Some b ->
     availability_domain b <> availability_domain a).
Proof.
  intros Ha. pose proof (call_location _ _ _ _ _ Ha) as Hla.
  split; [exact Hla|].
  intros Hnd Hlen b Hb E.
  pose proof (call_location _ _ _ _ _ Hb) as Hlb.
  rewrite E, <- Hla in Hlb.
  apply (neighbours_differ_mod (List.length (AD_NAMES g)) k Hlen).
  symmetry. apply (proj1 (NoDup_nth_error (AD_NAMES g)) Hnd).
  - apply Nat.mod_upper_bound. lia.
  - exact Hlb.
Qed.

Lemma round_robin_order_witness :
  nth_error (AD_NAMES three_domains) (2 mod 3) = Some "Uocm:PHX-AD-3" /\
  availability_domain (new_instance three_domains "Uocm:PHX-AD-1")
  <> availability_domain (new_instance three_domains "Uocm:PHX-AD-3").
Proof.
  destruct (round_robin_order three_domains (always_rejected 500) 2 2
              (new_instance three_domains "Uocm:PHX-AD-3") eq_refl)
    as [Hpos Hnext].
  split; [exact Hpos|].
  apply Hnext.
  - repeat constructor; simpl; intuition discriminate.
  - simpl. lia.
  - reflexivity.
Defined.

(** *** Ctrl-C *)

(** C6: whatever the duration, a Ctrl-C that arrives during the sleep
    of [safe_sleep] is caught there: the cancellation message is
    printed and [sys.exit(0)] is raised.  So a run whose pass [k] is
    rejected, logged and then interrupted in its sleep ends within
    that pass: no submission follows the one of pass [k], nothing but
    [SystemExit] leaves [main], and the process exits with code 0. *)
Theorem ctrl_c_during_sleep_exits_cleanly (g : Startup) (env : Env)
        (k fuel : nat) (err : ServiceErrorInfo) :
  passed env k ->
  launch (env k) = Rejected err ->
  write (env k) = IoOk ->
  nap (env k) = Interrupted ->
  k < fuel * List.length (AD_NAMES g) ->
  (forall (duration : Z) (w : World),
      current_pass w = k ->
      safe_sleep env duration w =
        (Raise (SystemExit 0),
         {| calls := calls w;
            stdout := stdout w ++ [cancel_message];
            faillog := faillog w;
            sleeps := sleeps w ++ [duration] |})) /\
  exists ad,
    let wm := world_at g env fuel k in
    nth_error (AD_NAMES g) (k mod List.length (AD_NAMES g)) = Some ad /\
    main g env fuel fresh =
      (Raise (SystemExit 0),
       {| calls := calls wm ++ [new_instance g ad];
          stdout := (stdout wm ++ [failure_msg (new_instance g ad) err])
                    ++ [cancel_message];
          faillog := faillog wm
                     ++ [(failure_msg (new_instance g ad) err ++ Text.nl)%string];
          sleeps := sleeps wm ++ [chosen_delay err] |}) /\
    List.length (calls (snd (main g env fuel fresh))) = S k /\
    process_status (fst (main g env fuel fresh)) = Exited 0.
Proof.
  intros Hp H1 H2 H3 Hf. split.
  - intros duration w Hw.
    unfold safe_sleep, try_except, sleep, bind, print, sys_exit, raise.
    rewrite Hw, H3. reflexivity.
  - destruct (main_ends_at_pass g env k fuel Hp) as (ad & Hnth & Hk & Hmain).
    { unfold completes. rewrite H1, H2, H3. reflexivity. }
    { exact Hf. }
    exists ad. cbv zeta. split; [exact Hnth|].
    rewrite <- Hk in H1, H2, H3.
    rewrite (attempt_sleep_interrupted _ _ _ _ H1 H2 H3) in Hmain.
    rewrite Hmain. simpl. repeat split.
    rewrite length_app. simpl. lia.
Qed.

Lemma ctrl_c_during_sleep_exits_cleanly_witness :
  (forall (duration : Z) (w : World),
      current_pass w = 1 ->
      safe_sleep ctrl_c_asleep duration w =
        (Raise (SystemExit 0),
         {| calls := calls w;
            stdout := stdout w ++ [cancel_message];
            faillog := faillog w;
            sleeps := sleeps w ++ [duration] |})) /\
  exists ad,
    let wm := world_at three_domains ctrl_c_asleep 2 1 in
    nth_error (AD_NAMES three_domains) (1 mod 3) = Some ad /\
    main three_domains ctrl_c_asleep 2 fresh =
      (Raise (SystemExit 0),
       {| calls := calls wm ++ [new_instance three_domains ad];
          stdout := (stdout wm
                     ++ [failure_msg (new_instance three_domains ad)
                                     (out_of_capacity 409)])
                    ++ [cancel_message];
          faillog := faillog wm
                     ++ [(failure_msg (new_instance three_domains ad)
                                      (out_of_capacity 409) ++ Text.nl)%string];
          sleeps := sleeps wm ++ [chosen_delay (out_of_capacity 409)] |}) /\
    List.length (calls (snd (main three_domains ctrl_c_asleep 2 fresh))) = 2 /\
    process_status (fst (main three_domains ctrl_c_asleep 2 fresh)) = Exited 0.
Proof.
  apply (ctrl_c_during_sleep_exits_cleanly three_domains ctrl_c_asleep 1 2
           (out_of_capacity 409)).
  - intros j Hj. destruct j as [|j]; [reflexivity | lia].
  - reflexivity.
  - reflexivity.
  - reflexivity.
  - simpl. lia.
Defined.

(** C9: a Ctrl-C that arrives while the request of pass [k] is in
    flight is caught by [main]: the cancellation message is printed,
    nothing is logged or slept, no further submission is made, and the
    process exits with code 0 instead of an unhandled
    [KeyboardInterrupt]. *)
Theorem ctrl_c_during_launch_exits_cleanly (g : Startup) (env : Env)
        (k fuel : nat) :
  passed env k ->
  launch (env k) = LaunchInterrupted ->
  k < fuel * List.length (AD_NAMES g) ->
  exists ad,
    let wm := world_at g env fuel k in
    nth_error (AD_NAMES g) (k mod List.length (AD_NAMES g)) = Some ad /\
    main g env fuel fresh =
      (Raise (SystemExit 0),
       {| calls := calls wm ++ [new_instance g ad];
          stdout := stdout wm ++ [cancel_message];
          faillog := faillog wm;
          sleeps := sleeps wm |}) /\
    List.length (calls (snd (main g env fuel fresh))) = S k /\
    process_status (fst (main g env fuel fresh)) = Exited 0.
Proof.
  intros Hp H1 Hf.
  destruct (main_ends_at_pass g env k fuel Hp) as (ad & Hnth & Hk & Hmain).
  { unfold completes. rewrite H1. reflexivity. }
  { exact Hf. }
  exists ad. cbv zeta. split; [exact Hnth|].
  rewrite <- Hk in H1.
  rewrite (attempt_launch_interrupted _ _ _ H1) in Hmain.
  rewrite Hmain. simpl. repeat split.
  rewrite length_app. simpl. lia.
Qed.

Lemma ctrl_c_during_launch_exits_cleanly_witness :
  exists ad,
    let wm := world_at three_domains ctrl_c_in_flight 1 1 in
    nth_error (AD_NAMES three_domains) (1 mod 3) = Some ad /\
    main three_domains ctrl_c_in_flight 1 fresh =
      (Raise (SystemExit 0),
       {| calls := calls wm ++ [new_instance three_domains ad];
          stdout := stdout wm ++ [cancel_message];
          faillog := faillog wm;
          sleeps := sleeps wm |}) /\
    List.length (calls (snd (main three_domains ctrl_c_in_flight 1 fresh))) = 2 /\
    process_status (fst (main three_domains ctrl_c_in_flight 1 fresh)) = Exited 0.
Proof.
  apply (ctrl_c_during_launch_exits_cleanly three_domains ctrl_c_in_flight 1 1).
  - intros j Hj. destruct j as [|j]; [reflexivity | lia].
  - reflexivity.
  - simpl. lia.
Defined.

(** *** The log line *)

(** C7, as stated, fails: the message holds no separator, yet an
    availability domain that ends in a dash runs into the separator
    behind it, and splitting the line gives back a shorter domain and
    a status code with a minus sign. *)
Lemma trailing_dash_shifts_fields :
  Text.contains "---" (message (out_of_capacity 500)) = false /\
  Text.split "---"
    (failure_msg (new_instance dash_domain "AD-") (out_of_capacity 500))
  = Some ["2024-05-01T10:00:00.000000+00:00"; "AD"; "-500";
          "Out of host capacity."] /\
  Text.split "---"
    (failure_msg (new_instance dash_domain "AD-") (out_of_capacity 500))
  <> Some [timestamp (out_of_capacity 500);
           availability_domain (new_instance dash_domain "AD-");
           Text.str (status (out_of_capacity 500));
           message (out_of_capacity 500)].
Proof.
  split; [reflexivity|]. split; [reflexivity|]. vm_compute. discriminate.
Qed.

(** C7, amended: the text appended to the log for a rejected request
    is the timestamp, the availability domain, the status code in
    decimal and the message, joined by ["---"] and followed by one
    newline.  Splitting the line (without its newline) on ["---"]
    gives back exactly these four fields, and the status text reads
    back as the status code, whenever the message does not contain the
    separator and neither the timestamp nor the availability domain
    contains the separator or ends in a dash. *)
Theorem log_line_round_trip (env : Env) (i : LaunchInstanceDetails)
        (w : World) (err : ServiceErrorInfo) :
  launch (env (List.length (calls w))) = Rejected err ->
  write (env (List.length (calls w))) = IoOk ->
  Text.field_ok (timestamp err) ->
  Text.field_ok (availability_domain i) ->
  Text.contains "---" (message err) = false ->
  exists body,
    faillog (snd (attempt env i w)) = faillog w ++ [(body ++ Text.nl)%string] /\
    body = (timestamp err ++ "---" ++ availability_domain i ++ "---"
            ++ Text.str (status err) ++ "---" ++ message err)%string /\
    Text.split "---" body
    = Some [timestamp err; availability_domain i; Text.str (status err);
            message err] /\
    Text.int (Text.str (status err)) = Some (status err).
Proof.
  intros H1 H2 Ht Ha Hm. exists (failure_msg i err). split; [|split; [|split]].
  - destruct (nap (env (List.length (calls w)))) eqn:H3.
    + rewrite (attempt_completed _ _ _ _ H1 H2 H3). reflexivity.
    + rewrite (attempt_sleep_interrupted _ _ _ _ H1 H2 H3). reflexivity.
  - reflexivity.
  - unfold failure_msg.
    apply TextFacts.split_join4; auto using TextFacts.str_field_ok.
  - apply TextFacts.int_str.
Qed.

Lemma log_line_round_trip_witness :
  exists body,
    faillog (snd (attempt (always_rejected 500)
                          (new_instance three_domains "Uocm:PHX-AD-1") fresh))
    = faillog fresh ++ [(body ++ Text.nl)%string] /\
    body = ("2024-05-01T10:00:00.000000+00:00" ++ "---" ++ "Uocm:PHX-AD-1"
            ++ "---" ++ Text.str 500 ++ "---" ++ "Out of host capacity.")%string /\
    Text.split "---" body
    = Some ["2024-05-01T10:00:00.000000+00:00"; "Uocm:PHX-AD-1"; Text.str 500;
            "Out of host capacity."] /\
    Text.int (Text.str 500) = Some 500%Z.
Proof.
  apply (log_line_round_trip (always_rejected 500)
           (new_instance three_domains "Uocm:PHX-AD-1") fresh
           (out_of_capacity 500)).
  - reflexivity.
  - reflexivity.
  - split; [reflexivity | vm_compute; discriminate].
  - split; [reflexivity | vm_compute; discriminate].
  - reflexivity.
Defined.

(** C10: for every rejected request whose log line is written, the
    line echoed on the console and the text appended to the log are
    the same formatted string, the log text having one newline added
    at its end. *)
Theorem echo_is_log_line (env : Env) (i : LaunchInstanceDetails)
        (w : World) (err : ServiceErrorInfo) :
  launch (env (List.length (calls w))) = Rejected err ->
  write (env (List.length (calls w))) = IoOk ->
  exists msg rest,
    msg = failure_msg i err /\
    stdout (snd (attempt env i w)) = stdout w ++ msg :: rest /\
    faillog (snd (attempt env i w)) = faillog w ++ [(msg ++ Text.nl)%string] /\
    (rest = [] \/ rest = [cancel_message]).
Proof.
  intros H1 H2. exists (failure_msg i err).
  destruct (nap (env (List.length (calls w)))) eqn:H3.
  - exists []. rewrite (attempt_completed _ _ _ _ H1 H2 H3). simpl. auto.
  - exists [cancel_message].
    rewrite (attempt_sleep_interrupted _ _ _ _ H1 H2 H3). simpl.
    rewrite <- app_assoc. simpl. auto.
Qed.

Lemma echo_is_log_line_witness :
  exists msg rest,
    msg = failure_msg (new_instance three_domains "Uocm:PHX-AD-3")
                      (out_of_capacity 409) /\
    stdout (snd (attempt (always_rejected 409)
                         (new_instance three_domains "Uocm:PHX-AD-3") fresh))
    = stdout fresh ++ msg :: rest /\
    faillog (snd (attempt (always_rejected 409)
                          (new_instance three_domains "Uocm:PHX-AD-3") fresh))
    = faillog fresh ++ [(msg ++ Text.nl)%string] /\
    (rest = [] \/ rest = [cancel_message]).
Proof.
  apply (echo_is_log_line (always_rejected 409)
           (new_instance three_domains "Uocm:PHX-AD-3") fresh
           (out_of_capacity 409)); reflexivity.
Defined.

(** *** Success *)

Lemma with_launch_same env k o :
  launch (with_launch env k o k) = o.
Proof. unfold with_launch. rewrite Nat.eqb_refl. reflexivity. Qed.

Lemma with_launch_other env k o j :
  j <> k -> with_launch env k o j = env j.
Proof.
  intros H. unfold with_launch.
  apply Nat.eqb_neq in H. rewrite H. reflexivity.
Qed.

(** C8, as stated, fails: two runs that differ only in the handle the
    provider returns leave exactly the same result and the same world:
    the handle reaches neither the caller nor the console. *)
Lemma handle_is_dropped :
  "ocid1.instance.oc1.phx.first" <> "ocid1.instance.oc1.phx.second" /\
  main three_domains (third_time_lucky "ocid1.instance.oc1.phx.first") 1 fresh
  = main three_domains (third_time_lucky "ocid1.instance.oc1.phx.second") 1
         fresh /\
  fst (main three_domains (third_time_lucky "ocid1.instance.oc1.phx.first") 1
            fresh)
  = Raise (SystemExit 0) /\
  nth_error
    (stdout (snd (main three_domains
                       (third_time_lucky "ocid1.instance.oc1.phx.first") 1
                       fresh))) 2
  = Some "FINALLY!!!!".
Proof.
  split; [discriminate|]. repeat split; vm_compute; reflexivity.
Qed.

(** C8, amended: in every run in which a submission is granted, the
    script prints its success message, makes no further submission,
    logs and sleeps no more, and the process exits with code 0; only
    [SystemExit] leaves [main].  The provider's response is dropped:
    the run is the same whatever handle is returned. *)
Theorem success_exits_zero (g : Startup) (env : Env) (k fuel : nat)
        (r : Response) :
  passed env k ->
  launch (env k) = Launched r ->
  k < fuel * List.length (AD_NAMES g) ->
  exists ad,
    let wm := world_at g env fuel k in
    nth_error (AD_NAMES g) (k mod List.length (AD_NAMES g)) = Some ad /\
    main g env fuel fresh =
      (Raise (SystemExit 0),
       {| calls := calls wm ++ [new_instance g ad];
          stdout := stdout wm ++ ["FINALLY!!!!"];
          faillog := faillog wm;
          sleeps := sleeps wm |}) /\
    List.length (calls (snd (main g env fuel fresh))) = S k /\
    process_status (fst (main g env fuel fresh)) = Exited 0 /\
    forall r' : Response,
      main g (with_launch env k (Launched r')) fuel fresh
      = main g env fuel fresh.
Proof.
  intros Hp H1 Hf.
  assert (Hrun : forall env' r',
             passed env' k -> launch (env' k) = Launched r' ->
             exists ad,
               nth_error (AD_NAMES g) (k mod List.length (AD_NAMES g))
               = Some ad /\
               main g env' fuel fresh =
                 (Raise (SystemExit 0),
                  {| calls := calls (world_at g env' fuel k)
                              ++ [new_instance g ad];
                     stdout := stdout (world_at g env' fuel k)
                               ++ ["FINALLY!!!!"];
                     faillog := faillog (world_at g env' fuel k);
                     sleeps := sleeps (world_at g env' fuel k) |}) /\
               List.length (calls (world_at g env' fuel k)) = k).
  { intros env' r' Hp' H1'.
    destruct (main_ends_at_pass g env' k fuel Hp') as (ad & Hnth & Hk & Hmain).
    { unfold completes. rewrite H1'. reflexivity. }
    { exact Hf. }
    exists ad. split; [exact Hnth|].
    rewrite <- Hk in H1'.
    rewrite (attempt_launched _ _ _ _ H1') in Hmain. auto. }
  destruct (Hrun env r Hp H1) as (ad & Hnth & Hmain & Hk).
  exists ad. cbv zeta. split; [exact Hnth|]. split; [exact Hmain|].
  split; [|split].
  - rewrite Hmain. simpl. rewrite length_app. simpl. lia.
  - rewrite Hmain. reflexivity.
  - intros r'.
    destruct (Hrun (with_launch env k (Launched r')) r')
      as (ad' & Hnth' & Hmain' & _).
    + intros j Hj. rewrite with_launch_other by lia. apply Hp. exact Hj.
    + apply with_launch_same.
    + rewrite Hnth in Hnth'. injection Hnth' as <-.
      rewrite Hmain', Hmain.
      rewrite (world_at_ext g (with_launch env k (Launched r')) env fuel k).
      * reflexivity.
      * intros j Hj. apply with_launch_other. lia.
Qed.

Lemma success_exits_zero_witness :
  exists ad,
    let wm := world_at three_domains (third_time_lucky "ocid1.instance") 1 2 in
    nth_error (AD_NAMES three_domains) (2 mod 3) = Some ad /\
    main three_domains (third_time_lucky "ocid1.instance") 1 fresh =
      (Raise (SystemExit 0),
       {| calls := calls wm ++ [new_instance three_domains ad];
          stdout := stdout wm ++ ["FINALLY!!!!"];
          faillog := faillog wm;
          sleeps := sleeps wm |}) /\
    List.length
      (calls (snd (main three_domains (third_time_lucky "ocid1.instance") 1
                        fresh))) = 3 /\
    process_status
      (fst (main three_domains (third_time_lucky "ocid1.instance") 1 fresh))
    = Exited 0 /\
    forall r' : Response,
      main three_domains
           (with_launch (third_time_lucky "ocid1.instance") 2 (Launched r'))
           1 fresh
      = main three_domains (third_time_lucky "ocid1.instance") 1 fresh.
Proof.
  apply (success_exits_zero three_domains (third_time_lucky "ocid1.instance")
           2 1 "ocid1.instance").
  - intros j Hj. destruct j as [|[|j]]; [reflexivity | reflexivity | lia].
  - reflexivity.
  - simpl. lia.
Defined.

(* ================================================================= *)
(** ** Sorting and the choice of the image *)

Section SortedFacts.

Context {A : Type}.
Variable key : A -> Z.
Variable reverse : bool.

Lemma goes_first_total kx ky :
  Py.goes_first reverse kx ky = false -> Py.goes_first reverse ky kx = true.
Proof.
  unfold Py.goes_first. destruct reverse; intros H;
    apply Z.leb_gt in H; apply Z.leb_le; lia.
Qed.

Lemma goes_first_trans kx ky kz :
  Py.goes_first reverse kx ky = true ->
  Py.goes_first reverse ky kz = true ->
  Py.goes_first reverse kx kz = true.
Proof.
  unfold Py.goes_first. destruct reverse; intros H1 H2;
    apply Z.leb_le in H1; apply Z.leb_le in H2; apply Z.leb_le; lia.
Qed.

Lemma sorted_insert_perm x l :
  Permutation (Py.sorted_insert key reverse x l) (x :: l).
Proof.
  induction l as [|y l IH]; simpl.
  - reflexivity.
  - destruct (Py.goes_first reverse (key x) (key y)).
    + reflexivity.
    + rewrite IH. apply perm_swap.
Qed.

(** The sorted list has the elements of the input, each as often. *)
Lemma sorted_perm l : Permutation (Py.sorted key reverse l) l.
Proof.
  induction l as [|x l IH]; simpl.
  - reflexivity.
  - rewrite sorted_insert_perm. apply perm_skip. exact IH.
Qed.

Lemma sorted_insert_ordered x l :
  StronglySorted
    (fun a b => Py.goes_first reverse (key a) (key b) = true) l ->
  StronglySorted
    (fun a b => Py.goes_first reverse (key a) (key b) = true)
    (Py.sorted_insert key reverse x l).
Proof.
  induction 1 as [|y l Hs IH Hy]; simpl.
  - repeat constructor.
  - destruct (Py.goes_first reverse (key x) (key y)) eqn:E.
    + constructor; [constructor; assumption|].
      constructor; [exact E|].
      rewrite Forall_forall in *. intros z Hz.
      apply (goes_first_trans _ (key y)); auto.
    + constructor; [exact IH|].
      eapply Permutation_Forall.
      * symmetry. apply sorted_insert_perm.
      * constructor; [apply goes_first_total; exact E | exact Hy].
Qed.

(** The sorted list is in order: ascending keys, or descending ones
    with [reverse=True]. *)
Lemma sorted_ordered l :
  StronglySorted
    (fun a b => Py.goes_first reverse (key a) (key b) = true)
    (Py.sorted key reverse l).
Proof.
  induction l as [|x l IH]; simpl.
  - constructor.
  - apply sorted_insert_ordered. exact IH.
Qed.

Lemma sorted_insert_stable v x l :
  filter (fun a => (key a =? v)%Z) (Py.sorted_insert key reverse x l)
  = filter (fun a => (key a =? v)%Z) (x :: l).
Proof.
  induction l as [|y l IH]; simpl.
  - reflexivity.
  - destruct (Py.goes_first reverse (key x) (key y)) eqn:E.
    + reflexivity.
    + simpl. rewrite IH. simpl.
      destruct (key x =? v)%Z eqn:Ex; [|reflexivity].
      destruct (key y =? v)%Z eqn:Ey; [|reflexivity].
      apply Z.eqb_eq in Ex. apply Z.eqb_eq in Ey.
      unfold Py.goes_first in E.
      destruct reverse; apply Z.leb_gt in E; lia.
Qed.

(** The sort is stable: elements with the same key keep the order
    they had in the input, in both directions. *)
Lemma sorted_stable v l :
  filter (fun a => (key a =? v)%Z) (Py.sorted key reverse l)
  = filter (fun a => (key a =? v)%Z) l.
Proof.
  induction l as [|x l IH].
  - reflexivity.
  - change (Py.sorted key reverse (x :: l))
      with (Py.sorted_insert key reverse x (Py.sorted key reverse l)).
    rewrite sorted_insert_stable. simpl. rewrite IH. reflexivity.
Qed.

End SortedFacts.

Section NewestFirst.

Context {A : Type}.
Variable key : A -> Z.

(** The head of the list sorted with [reverse=True], element by
    element: a later element takes the lead only with a larger key. *)
Lemma sorted_head_cons x l :
  hd_error (Py.sorted key true (x :: l)) =
    match hd_error (Py.sorted key true l) with
    | None => Some x
    | Some y => if (key y <=? key x)%Z then Some x else Some y
    end.
Proof.
  change (Py.sorted key true (x :: l))
    with (Py.sorted_insert key true x (Py.sorted key true l)).
  destruct (Py.sorted key true l) as [|y s]; simpl.
  - reflexivity.
  - destruct (key y <=? key x)%Z; reflexivity.
Qed.

Lemma sorted_head_none l :
  hd_error (Py.sorted key true l) = None <-> l = [].
Proof.
  split.
  - destruct l as [|x l]; [reflexivity|].
    rewrite sorted_head_cons.
    destruct (hd_error (Py.sorted key true l)) as [y|];
      [destruct (key y <=? key x)%Z|]; discriminate.
  - intros ->. reflexivity.
Qed.

Lemma sorted_head_max l m :
  hd_error (Py.sorted key true l) = Some m ->
  In m l /\ forall x, In x l -> (key x <= key m)%Z.
Proof.
  revert m. induction l as [|x l IH]; intros m.
  - discriminate.
  - rewrite sorted_head_cons.
    destruct (hd_error (Py.sorted key true l)) as [y|] eqn:E.
    + destruct (IH y eq_refl) as [Hin Hmax].
      destruct (key y <=? key x)%Z eqn:C; intros [= <-].
      * apply Z.leb_le in C. split; [left; reflexivity|].
        intros z [<-|Hz]; [lia|]. specialize (Hmax z Hz). lia.
      * apply Z.leb_gt in C. split; [right; exact Hin|].
        intros z [<-|Hz]; [lia | auto].
    + intros [= <-]. apply sorted_head_none in E. subst l.
      split; [left; reflexivity|]. intros z [<-|[]]. lia.
Qed.

(** Among the elements with the largest key, the one that comes first
    in the input leads the sorted list. *)
Lemma sorted_head_first_max pre m post :
  (forall x, In x pre -> (key x < key m)%Z) ->
  (forall x, In x post -> (key x <= key m)%Z) ->
  hd_error (Py.sorted key true (pre ++ m :: post)) = Some m.
Proof.
  intros Hpre Hpost. induction pre as [|p pre IH]; simpl app.
  - rewrite sorted_head_cons.
    destruct (hd_error (Py.sorted key true post)) as [y|] eqn:E;
      [|reflexivity].
    apply sorted_head_max in E. destruct E as [Hin _].
    specialize (Hpost y Hin).
    destruct (key y <=? key m)%Z eqn:C; [reflexivity|].
    apply Z.leb_gt in C. lia.
  - rewrite sorted_head_cons, IH.
    + specialize (Hpre p (or_introl eq_refl)).
      destruct (key m <=? key p)%Z eqn:C; [|reflexivity].
      apply Z.leb_le in C. lia.
    + intros x Hx. apply Hpre. right. exact Hx.
Qed.

End NewestFirst.

Lemma collect_ubuntu_filter image_list ubuntu_list :
  collect_ubuntu image_list ubuntu_list
  = ubuntu_list ++ filter is_ubuntu_image image_list.
Proof.
  revert ubuntu_list. induction image_list as [|img rest IH];
    intros ubuntu_list; simpl.
  - rewrite app_nil_r. reflexivity.
  - rewrite IH. destruct (is_ubuntu_image img).
    + rewrite <- app_assoc. reflexivity.
    + reflexivity.
Qed.

Lemma newest_ubuntu_leads image_list img :
  newest_ubuntu image_list = Some img ->
  In img (filter is_ubuntu_image image_list) /\
  forall other,
    In other (filter is_ubuntu_image image_list) ->
    (Image.time_created other <= Image.time_created img)%Z.
Proof.
  unfold newest_ubuntu. rewrite collect_ubuntu_filter. simpl.
  apply sorted_head_max.
Qed.

Lemma newest_ubuntu_none image_list :
  newest_ubuntu image_list = None <-> filter is_ubuntu_image image_list = [].
Proof.
  unfold newest_ubuntu. rewrite collect_ubuntu_filter. simpl.
  apply sorted_head_none.
Qed.

Lemma filter_nil_iff {A} (p : A -> bool) (l : list A) :
  filter p l = [] <-> forall x, In x l -> p x = false.
Proof.
  split.
  - intros H x Hin. destruct (p x) eqn:E; [|reflexivity].
    assert (Hf : In x (filter p l)) by (apply filter_In; auto).
    rewrite H in Hf. destruct Hf.
  - intros H. induction l as [|x l IH]; [reflexivity|].
    simpl. rewrite (H x (or_introl eq_refl)).
    apply IH. intros y Hy. apply H. right. exact Hy.
Qed.

(** X1: The chosen image is one of the listed images, it is an Ubuntu
    aarch64 image that is not Minimal, and no listed image of that
    kind is newer. *)
Theorem newest_ubuntu_sound (image_list : list Image.t) (img : Image.t) :
  newest_ubuntu image_list = Some img ->
  In img image_list /\
  is_ubuntu_image img = true /\
  forall other,
    In other image_list -> is_ubuntu_image other = true ->
    (Image.time_created other <= Image.time_created img)%Z.
Proof.
  intros H. apply newest_ubuntu_leads in H. destruct H as [Hin Hmax].
  apply filter_In in Hin. destruct Hin as [Hin Hw].
  split; [exact Hin|]. split; [exact Hw|].
  intros other Ho How. apply Hmax. apply filter_In. auto.
Qed.

Lemma newest_ubuntu_sound_witness :
  In (Sample.image "img-2204" "Canonical-Ubuntu-22.04-aarch64-2024.02.18-0"
                   1708214400) Sample.images /\
  is_ubuntu_image
    (Sample.image "img-2204" "Canonical-Ubuntu-22.04-aarch64-2024.02.18-0"
                  1708214400) = true /\
  forall other,
    In other Sample.images -> is_ubuntu_image other = true ->
    (Image.time_created other <= 1708214400)%Z.
Proof.
  apply (newest_ubuntu_sound Sample.images
           (Sample.image "img-2204"
              "Canonical-Ubuntu-22.04-aarch64-2024.02.18-0" 1708214400)).
  reflexivity.
Defined.

(** X2: Choosing the image fails, with the [IndexError] of [[0]], exactly
    when no listed image is an Ubuntu aarch64 image that is not
    Minimal; an empty listing is one such case. *)
Theorem newest_ubuntu_fails_iff (image_list : list Image.t) :
  newest_ubuntu image_list = None <->
  forall img, In img image_list -> is_ubuntu_image img = false.
Proof.
  rewrite newest_ubuntu_none. apply filter_nil_iff.
Qed.

(** X3: When several images of the wanted kind share the newest creation
    time, the one listed first is chosen: the chosen image is the
    first wanted image that no wanted image before it equals or beats
    and no wanted image after it beats. *)
Theorem newest_ubuntu_first_of_newest (pre post : list Image.t)
        (img : Image.t) :
  is_ubuntu_image img = true ->
  (forall o, In o pre -> is_ubuntu_image o = true ->
             (Image.time_created o < Image.time_created img)%Z) ->
  (forall o, In o post -> is_ubuntu_image o = true ->
             (Image.time_created o <= Image.time_created img)%Z) ->
  newest_ubuntu (pre ++ img :: post) = Some img.
Proof.
  intros Hw Hpre Hpost. unfold newest_ubuntu.
  rewrite collect_ubuntu_filter. simpl. rewrite filter_app. simpl.
  rewrite Hw. apply sorted_head_first_max.
  - intros x Hx. apply filter_In in Hx. destruct Hx. auto.
  - intros x Hx. apply filter_In in Hx. destruct Hx. auto.
Qed.

Lemma newest_ubuntu_first_of_newest_witness :
  newest_ubuntu Sample.images
  = Some (Sample.image "img-2204"
            "Canonical-Ubuntu-22.04-aarch64-2024.02.18-0" 1708214400).
Proof.
  apply (newest_ubuntu_first_of_newest
           (firstn 3 Sample.images) (skipn 4 Sample.images)
           (Sample.image "img-2204"
              "Canonical-Ubuntu-22.04-aarch64-2024.02.18-0" 1708214400)).
  - reflexivity.
  - intros o Ho Hw. simpl in Ho.
    destruct Ho as [<-|[<-|[<-|[]]]]; try discriminate Hw.
    simpl. lia.
  - intros o Ho Hw. simpl in Ho.
    destruct Ho as [<-|[<-|[]]]; try discriminate Hw.
    simpl. lia.
Defined.

(* ================================================================= *)
(** ** The trail a run leaves *)

Section Trail.

Variable env : Env.

Lemma in_step_fresh : in_step env fresh.
Proof.
  unfold in_step. simpl. repeat split. intros j Hj. lia.
Qed.

(** A pass that returns has been rejected, logged and slept out. *)
Lemma attempt_ret_inv i w w' :
  attempt env i w = (Ret tt, w') ->
  exists err,
    launch (env (List.length (calls w))) = Rejected err /\
    write (env (List.length (calls w))) = IoOk /\
    nap (env (List.length (calls w))) = Completed /\
    w' = {| calls := calls w ++ [i];
            stdout := stdout w ++ [failure_msg i err];
            faillog := faillog w ++ [(failure_msg i err ++ Text.nl)%string];
            sleeps := sleeps w ++ [chosen_delay err] |}.
Proof.
  destruct (launch (env (List.length (calls w)))) as [r|err|] eqn:H1.
  - rewrite (attempt_launched _ _ _ _ H1). discriminate.
  - destruct (write (env (List.length (calls w)))) as [|reason] eqn:H2.
    + destruct (nap (env (List.length (calls w)))) eqn:H3.
      * rewrite (attempt_completed _ _ _ _ H1 H2 H3). intros [= <-].
        exists err. auto.
      * rewrite (attempt_sleep_interrupted _ _ _ _ H1 H2 H3). discriminate.
    + rewrite (attempt_write_failed _ _ _ _ _ H1 H2). discriminate.
  - rewrite (attempt_launch_interrupted _ _ _ H1). discriminate.
Qed.


Lemma nth_error_snoc {A} (l : list A) (x : A) n :
  n = List.length l -> nth_error (l ++ [x]) n = Some x.
Proof.
  intros ->. rewrite nth_error_app2, Nat.sub_diag by lia. reflexivity.
Qed.

Lemma in_step_next i w err :
  in_step env w ->
  launch (env (List.length (calls w))) = Rejected err ->
  write (env (List.length (calls w))) = IoOk ->
  nap (env (List.length (calls w))) = Completed ->
  in_step env
    {| calls := calls w ++ [i];
       stdout := stdout w ++ [failure_msg i err];
       faillog := faillog w ++ [(failure_msg i err ++ Text.nl)%string];
       sleeps := sleeps w ++ [chosen_delay err] |}.
Proof.
  intros (Ho & Hl & Hs & Hall) H1 H2 H3. unfold in_step. simpl.
  rewrite !length_app. simpl. repeat split; try lia.
  intros j Hj.
  destruct (Nat.eq_dec j (List.length (calls w))) as [->|Hne].
  - exists i, err.
    rewrite !nth_error_snoc by congruence. auto 10.
  - destruct (Hall j ltac:(lia)) as (i' & err' & Hc & E1 & E2 & E3 & Eo & El & Es).
    exists i', err'.
    rewrite !nth_error_app1 by lia. auto 10.
Qed.

(** How a [for] loop over passes ends when it starts in step: either
    every pass went through, or one pass raised from a world in step. *)
Lemma for_each_shape l w r w' :
  for_each l (attempt env) w = (r, w') ->
  in_step env w ->
  (r = Ret tt /\ in_step env w' /\ calls w' = calls w ++ l) \/
  (exists x wm i,
      r = Raise x /\ in_step env wm /\
      attempt env i wm = (Raise x, w') /\
      List.length (calls wm) < List.length (calls w) + List.length l).
Proof.
  revert w. induction l as [|i l IH]; intros w Hrun Hw.
  - injection Hrun as <- <-. left. rewrite app_nil_r. auto.
  - simpl in Hrun. unfold bind in Hrun.
    destruct (attempt env i w) as [[[]|x|] w1] eqn:E.
    + destruct (attempt_ret_inv _ _ _ E) as (err & H1 & H2 & H3 & ->).
      pose proof (in_step_next i w err Hw H1 H2 H3) as Hw1.
      destruct (IH _ Hrun Hw1) as [(-> & Hw' & Hc)|(x & wm & i' & -> & Hwm & Ha & Hlt)].
      * left. simpl in Hc. rewrite <- app_assoc in Hc. auto.
      * right. exists x, wm, i'. cbn [calls] in Hlt.
        rewrite length_app in Hlt. cbn [List.length] in *.
        split; [reflexivity|]. split; [exact Hwm|]. split; [exact Ha|]. lia.
    + injection Hrun as <- <-. right. exists x, w, i.
      cbn [List.length].
      split; [reflexivity|]. split; [exact Hw|]. split; [exact E|]. lia.
    + exfalso. apply (attempt_not_out_of_fuel env i w). rewrite E. reflexivity.
Qed.

End Trail.


Section RunFacts.

Variable g : Startup.
Variable env : Env.

(** How a run of [main] stands after [fuel] rounds: still looping with
    every pass gone through, or ended by one pass that raised. *)
Lemma main_shape fuel r w' :
  main g env fuel fresh = (r, w') ->
  (r = OutOfFuel /\ in_step env w' /\
   calls w' = rounds fuel (instance_list g)) \/
  (exists x wm i,
      r = Raise x /\ in_step env wm /\
      attempt env i wm = (Raise x, w') /\
      List.length (calls wm) < fuel * List.length (AD_NAMES g)).
Proof.
  rewrite main_rounds. fold (instance_list g). intros H.
  destruct (for_each (rounds fuel (instance_list g)) (attempt env) fresh)
    as [r0 w0] eqn:E.
  destruct (for_each_shape env _ _ _ _ E (in_step_fresh env))
    as [(-> & Hw & Hc)|(x & wm & i & -> & Hwm & Ha & Hlt)].
  - injection H as <- <-. left. auto.
  - injection H as <- <-. right. exists x, wm, i.
    rewrite rounds_length in Hlt. unfold instance_list in Hlt.
    rewrite length_map in Hlt. simpl in Hlt. auto.
Qed.

Lemma in_step_passed w : in_step env w -> passed env (List.length (calls w)).
Proof.
  intros (_ & _ & _ & Hall) j Hj.
  destruct (Hall j Hj) as (i & err & _ & E1 & E2 & E3 & _).
  unfold completes. rewrite E1, E2, E3. reflexivity.
Qed.

(** Every request of a run is one the builder made. *)
Lemma main_submits_candidates fuel req :
  In req (calls (snd (main g env fuel fresh))) ->
  exists ad, In ad (AD_NAMES g) /\ req = new_instance g ad.
Proof.
  destruct (main_calls g env fuel) as (n & _ & ->). intros H.
  assert (H' : In req (rounds fuel (instance_list g))).
  { rewrite <- (firstn_skipn n). apply in_or_app. left. exact H. }
  clear H. rename H' into H. unfold rounds in H.
  apply in_concat in H. destruct H as (l & Hl & Hin).
  apply repeat_spec in Hl. subst l. unfold instance_list in Hin.
  apply in_map_iff in Hin. destruct Hin as (ad & <- & Had).
  exists ad. auto.
Qed.

End RunFacts.

Section TrailOfMain.

Variable g : Startup.
Variable env : Env.


End TrailOfMain.

(* ================================================================= *)
(** ** Further properties of the loop *)



(** X7: Rejections alone never end the script.  After [fuel] turns of
    [while True] over [n] availability domains the script is still
    looping exactly when each of the first [fuel * n] passes was
    rejected, logged and slept out; it has then made [fuel * n]
    requests, the builder's list over and over, and written as many
    log lines. *)
Theorem retries_without_end (g : Startup) (env : Env) (fuel : nat) :
  passed env (fuel * List.length (AD_NAMES g)) <->
  exists w,
    main g env fuel fresh = (OutOfFuel, w) /\
    calls w = rounds fuel (instance_list g) /\
    List.length (faillog w) = fuel * List.length (AD_NAMES g).
Proof.
  assert (Hlen : List.length (rounds fuel (instance_list g))
                 = fuel * List.length (AD_NAMES g)).
  { rewrite rounds_length. unfold instance_list. rewrite length_map.
    reflexivity. }
  split.
  - intros Hp. destruct (main g env fuel fresh) as [r w] eqn:E.
    destruct (main_shape g env fuel _ _ E)
      as [(-> & Hw & Hc)|(x & wm & i & -> & Hwm & Ha & Hlt)].
    + exists w. split; [reflexivity|]. split; [exact Hc|].
      destruct Hw as (_ & Hl & _). rewrite Hl, Hc. exact Hlen.
    + exfalso.
      destruct (attempt_goes_through env i wm (Hp _ Hlt)) as (w1 & Hr & _).
      rewrite Hr in Ha. discriminate.
  - intros (w & E & Hc & _).
    destruct (main_shape g env fuel _ _ E)
      as [(_ & Hw & _)|(x & wm & i & H & _)]; [|discriminate].
    apply in_step_passed in Hw. rewrite Hc, Hlen in Hw. exact Hw.
Qed.

Lemma retries_without_end_witness :
  exists w,
    main three_domains (always_rejected 409) 2 fresh = (OutOfFuel, w) /\
    calls w = rounds 2 (instance_list three_domains) /\
    List.length (faillog w) = 2 * List.length (AD_NAMES three_domains).
Proof.
  apply (proj1 (retries_without_end three_domains (always_rejected 409) 2)).
  intros j _. reflexivity.
Defined.








Section Growth.

Variable env : Env.





End Growth.


(* ================================================================= *)
(** ** Start-up *)

Lemma module_level_booted_inv a g :
  module_level a = Booted g ->
  exists key vcn vcns subnet subnets img,
    id_rsa_pub a = Some key /\
    list_vcns a (config_tenancy a) = vcn :: vcns /\
    list_subnets a (config_tenancy a) (Vcn.id vcn) = subnet :: subnets /\
    newest_ubuntu (list_images a (config_tenancy a) SHAPE_NAME) = Some img /\
    g = {| COMPARTMENT_ID := config_tenancy a;
           SUBNET_ID := Subnet.id subnet;
           AD_NAMES := map AvailabilityDomain.name
                           (list_availability_domains a (config_tenancy a));
           IMAGE_ID := Image.id img;
           pub_key := key |}.
Proof.
  unfold module_level.
  destruct (id_rsa_pub a) as [key|] eqn:Hk; [|discriminate].
  destruct (list_vcns a (config_tenancy a)) as [|vcn vcns] eqn:Hv;
    [discriminate|].
  destruct (list_subnets a (config_tenancy a) (Vcn.id vcn))
    as [|subnet subnets] eqn:Hs; [discriminate|].
  destruct (newest_ubuntu (list_images a (config_tenancy a) SHAPE_NAME))
    as [img|] eqn:Hi; [|discriminate].
  intros [= <-]. exists key, vcn, vcns, subnet, subnets, img.
  split; [reflexivity|]. split; [reflexivity|]. split; [exact Hs|].
  split; reflexivity.
Qed.

(** X4: When start-up fails.  It fails on the key file exactly when the
    public key file cannot be read.  Otherwise it fails with
    [IndexError] exactly when the tenancy lists no VCN, or the first
    VCN listed has no subnet (subnets of other VCNs do not count), or
    no listed image is an Ubuntu aarch64 image that is not Minimal. *)
Theorem startup_fails_iff (a : Account) :
  (module_level a = Failed KeyFileError <-> id_rsa_pub a = None) /\
  (module_level a = Failed IndexError <->
   id_rsa_pub a <> None /\
   (list_vcns a (config_tenancy a) = [] \/
    (exists vcn vcns,
        list_vcns a (config_tenancy a) = vcn :: vcns /\
        list_subnets a (config_tenancy a) (Vcn.id vcn) = []) \/
    (forall img,
        In img (list_images a (config_tenancy a) SHAPE_NAME) ->
        is_ubuntu_image img = false))).
Proof.
  unfold module_level.
  destruct (id_rsa_pub a) as [key|].
  2:{ split; split; intros H; try reflexivity; try discriminate H.
      destruct H as [H _]. exfalso. apply H. reflexivity. }
  assert (Hkey : Some key <> None) by discriminate.
  destruct (list_vcns a (config_tenancy a)) as [|vcn vcns].
  { split; split; intros H; try reflexivity; try discriminate H.
    split; [exact Hkey | left; reflexivity]. }
  destruct (list_subnets a (config_tenancy a) (Vcn.id vcn))
    as [|subnet subnets] eqn:Hs.
  { split; split; intros H; try reflexivity; try discriminate H.
    split; [exact Hkey|]. right. left. exists vcn, vcns. auto. }
  destruct (newest_ubuntu (list_images a (config_tenancy a) SHAPE_NAME))
    as [img|] eqn:E.
  - split; split; intros H; try discriminate H.
    destruct H as [_ [H|[(v & vs & Hv & H)|H]]].
    + discriminate H.
    + injection Hv as <- <-. rewrite Hs in H. discriminate H.
    + apply filter_nil_iff, newest_ubuntu_none in H.
      rewrite H in E. discriminate E.
  - split; split; intros H; try reflexivity; try discriminate H.
    split; [exact Hkey|]. right. right.
    apply filter_nil_iff, newest_ubuntu_none. exact E.
Qed.

Lemma startup_fails_iff_witness :
  module_level Sample.no_vcn = Failed IndexError.
Proof.
  apply (proj2 (proj2 (startup_fails_iff Sample.no_vcn))).
  split; [discriminate | left; reflexivity].
Defined.

(** X5: What the script asks the provider for.  Every request of every
    run is for the tenancy of the configuration file, in an
    availability domain the provider listed, on the first subnet of
    the first VCN, booting the image chosen at start-up (an Ubuntu
    aarch64 image that is not Minimal, none newer among the listed
    ones), and carrying the public key as [ssh_authorized_keys]. *)
Theorem script_requests (a : Account) (env : Env) (fuel : nat)
        (r : Res unit) (w : World) (req : LaunchInstanceDetails) :
  script a env fuel = Ran r w ->
  In req (calls w) ->
  compartment_id req = config_tenancy a /\
  shape req = "VM.Standard.A1.Flex" /\
  (exists ad,
      In ad (list_availability_domains a (config_tenancy a)) /\
      availability_domain req = AvailabilityDomain.name ad) /\
  (exists vcn vcns subnet subnets,
      list_vcns a (config_tenancy a) = vcn :: vcns /\
      list_subnets a (config_tenancy a) (Vcn.id vcn) = subnet :: subnets /\
      subnet_id (create_vnic_details req) = Subnet.id subnet) /\
  (exists img,
      In img (list_images a (config_tenancy a) SHAPE_NAME) /\
      is_ubuntu_image img = true /\
      (forall other,
          In other (list_images a (config_tenancy a) SHAPE_NAME) ->
          is_ubuntu_image other = true ->
          (Image.time_created other <= Image.time_created img)%Z) /\
      image_id (source_details req) = Image.id img) /\
  (exists key,
      id_rsa_pub a = Some key /\
      metadata req = [("ssh_authorized_keys", key)]).
Proof.
  unfold script. destruct (module_level a) as [g|e] eqn:E; [|discriminate].
  destruct (main g env fuel fresh) as [r0 w0] eqn:Em. intros [= <- <-] Hin.
  destruct (module_level_booted_inv a g E)
    as (key & vcn & vcns & subnet & subnets & img & Hk & Hv & Hs & Hi & ->).
  assert (Hw : w0 = snd (main _ env fuel fresh)) by (rewrite Em; reflexivity).
  rewrite Hw in Hin.
  apply main_submits_candidates in Hin. destruct Hin as (ad & Had & ->).
  simpl in Had. apply in_map_iff in Had. destruct Had as (d & <- & Hd).
  destruct (newest_ubuntu_leads _ _ Hi) as (Hin & Hmax).
  apply filter_In in Hin. destruct Hin as [Hin Hu].
  simpl. split; [reflexivity|]. split; [reflexivity|].
  split; [exists d; auto|].
  split; [exists vcn, vcns, subnet, subnets; auto|].
  split.
  - exists img. repeat split; auto.
    intros other Ho Hou. apply Hmax. apply filter_In. auto.
  - exists key. auto.
Qed.

Lemma script_requests_witness :
  compartment_id (new_instance
     {| COMPARTMENT_ID := "ocid1.tenancy.oc1..example";
        SUBNET_ID := "ocid1.subnet.oc1.phx.example";
        AD_NAMES := ["Uocm:PHX-AD-1"; "Uocm:PHX-AD-2"];
        IMAGE_ID := "img-2204";
        pub_key := "ssh-rsa AAAA example" |} "Uocm:PHX-AD-2")
  = config_tenancy Sample.ready.
Proof.
  refine (proj1 (script_requests Sample.ready (always_rejected 500) 1
                   OutOfFuel
                   (snd (main
                      {| COMPARTMENT_ID := "ocid1.tenancy.oc1..example";
                         SUBNET_ID := "ocid1.subnet.oc1.phx.example";
                         AD_NAMES := ["Uocm:PHX-AD-1"; "Uocm:PHX-AD-2"];
                         IMAGE_ID := "img-2204";
                         pub_key := "ssh-rsa AAAA example" |}
                      (always_rejected 500) 1 fresh))
                   _ _ _)).
  - vm_compute. reflexivity.
  - right. left. reflexivity.
Defined.
